(** * bb-app: configuration, validation and service-health layer

    A shallow embedding of [env-config.js] (class [EnvironmentConfig] and the
    module initialisation below it) and of the connection and probe logic of
    [server.js] ([connectWithRetry], [GET /health], [GET /ready],
    [GET /live]), with the properties of the design document stated against
    it.

    Conventions.
    - A JavaScript string is a [string]; each character stands for one UTF-16
      code unit in the Latin-1 range, so [String.length] is [.length].
    - A plain object used as a dictionary ([this.config], [process.env]) is a
      [gmap string string]; keys are ordinary own properties.
    - A [Set] is the list of its members in insertion order, which is the
      order [forEach] visits them in.
    - Console output, thrown errors and I/O are threaded through a small
      state-and-exception monad [JS]. *)

From Stdlib Require Import ZArith Ascii String List Bool Lia DecimalString.
From stdpp Require Import gmap strings list fin_maps.

Open Scope string_scope.

(* ===================================================================== *)
(** ** Effects: state passing with exceptions *)
(* ===================================================================== *)

Inductive outcome (E A : Type) : Type :=
| Returned (a : A)
| Thrown (e : E).
Arguments Returned {E A} a.
Arguments Thrown {E A} e.

(** A computation over a world [W] that may throw an [E]. *)
Definition JS (W E A : Type) : Type := W -> outcome E A * W.

Definition ret {W E A} (a : A) : JS W E A := fun w => (Returned a, w).

Definition throw {W E A} (e : E) : JS W E A := fun w => (Thrown e, w).

Definition bind {W E A B} (c : JS W E A) (k : A -> JS W E B) : JS W E B :=
  fun w =>
    match c w with
    | (Returned a, w') => k a w'
    | (Thrown e, w') => (Thrown e, w')
    end.

(** [try { c } catch (e) { h e }]; the handler may throw an error of
    another type. *)
Definition try_catch {W E E' A} (c : JS W E A) (h : E -> JS W E' A) : JS W E' A :=
  fun w =>
    match c w with
    | (Returned a, w') => (Returned a, w')
    | (Thrown e, w') => h e w'
    end.

Definition gets {W E A} (f : W -> A) : JS W E A := fun w => (Returned (f w), w).

Definition modify {W E} (f : W -> W) : JS W E unit := fun w => (Returned tt, f w).

Declare Scope js_scope.
Delimit Scope js_scope with js.
Notation "'let*' x ':=' c 'in' k" := (bind c (fun x => k))
  (at level 10, x name, c at level 100, k at level 200) : js_scope.
Notation "'run' c 'then' k" := (bind c (fun _ => k))
  (at level 10, c at level 100, k at level 200) : js_scope.

Open Scope js_scope.

(* ===================================================================== *)
(** ** JavaScript strings *)
(* ===================================================================== *)

Module JsString.

(** WhiteSpace and LineTerminator code units below 256: TAB, LF, VT, FF,
    CR, SP and NBSP.  These are what [String.prototype.trim] removes. *)
Definition is_white_space (c : ascii) : bool :=
  let n := nat_of_ascii c in
  (n =? 9)%nat || (n =? 10)%nat || (n =? 11)%nat || (n =? 12)%nat
  || (n =? 13)%nat || (n =? 32)%nat || (n =? 160)%nat.

(** LineTerminator code units below 256 (the ones [.] does not match). *)
Definition is_line_terminator (c : ascii) : bool :=
  let n := nat_of_ascii c in (n =? 10)%nat || (n =? 13)%nat.

Fixpoint trimStart (s : string) : string :=
  match s with
  | String c s' => if is_white_space c then trimStart s' else s
  | EmptyString => EmptyString
  end.

(** Removes trailing white space: a character is kept when it is not
    white space or when something survives after it. *)
Fixpoint trimEnd (s : string) : string :=
  match s with
  | EmptyString => EmptyString
  | String c s' =>
      match trimEnd s' with
      | EmptyString => if is_white_space c then EmptyString else String c EmptyString
      | t => String c t
      end
  end.

Definition trim (s : string) : string := trimEnd (trimStart s).

(** [s.split(sep)] for a one-character separator: always at least one
    piece, and a trailing separator yields a trailing empty piece. *)
Fixpoint split (sep : ascii) (s : string) : list string :=
  match s with
  | EmptyString => [EmptyString]
  | String c s' =>
      if Ascii.eqb c sep then EmptyString :: split sep s'
      else match split sep s' with
           | piece :: pieces => String c piece :: pieces
           | [] => [String c EmptyString]
           end
  end.

Definition startsWith (p s : string) : bool := String.prefix p s.

Fixpoint last_char (s : string) : option ascii :=
  match s with
  | EmptyString => None
  | String c EmptyString => Some c
  | String _ s' => last_char s'
  end.

(** [s.endsWith(c)] for a one-character argument. *)
Definition endsWith_char (c : ascii) (s : string) : bool :=
  match last_char s with
  | Some d => Ascii.eqb c d
  | None => false
  end.

(** [s.slice(1, -1)]: from index 1 up to, not including, the last
    character; empty when the string has fewer than three characters. *)
Definition slice_1_m1 (s : string) : string :=
  String.substring 1 (String.length s - 2) s.

(** Splits at the first occurrence of [c], which is dropped. *)
Fixpoint break_at (c : ascii) (s : string) : option (string * string) :=
  match s with
  | EmptyString => None
  | String d s' =>
      if Ascii.eqb d c then Some (EmptyString, s')
      else match break_at c s' with
           | Some (before, after) => Some (String d before, after)
           | None => None
           end
  end.

Fixpoint forallb_string (p : ascii -> bool) (s : string) : bool :=
  match s with
  | EmptyString => true
  | String c s' => p c && forallb_string p s'
  end.

Definition is_empty (s : string) : bool :=
  match s with EmptyString => true | _ => false end.

(** The canonical form the [i] flag compares characters by (upper case).
    Only ASCII letters change: a code unit of 128 or more never
    canonicalises to an ASCII one, and every pattern of the program is
    ASCII. *)
Definition canonicalize (c : ascii) : ascii :=
  let n := nat_of_ascii c in
  if (97 <=? n)%nat && (n <=? 122)%nat then ascii_of_nat (n - 32) else c.

Definition eqb_ci (a b : ascii) : bool :=
  Ascii.eqb (canonicalize a) (canonicalize b).

(** Matches [p] case-insensitively at the start of [s]; what follows the
    match is returned. *)
Fixpoint match_ci (p s : string) : option string :=
  match p with
  | EmptyString => Some s
  | String a p' =>
      match s with
      | String b s' => if eqb_ci a b then match_ci p' s' else None
      | EmptyString => None
      end
  end.

End JsString.

(** Regular expressions of the shape [/^(a1|a2|...)/i] and
    [/^(a1|a2|...)$/i], the only ones [isInsecureSecret] uses.  Without the
    [m] flag [$] matches at the end of the input only. *)
Record regexp : Type := {
  alternatives : list string;
  end_anchored : bool
}.

Definition regexp_test (r : regexp) (value : string) : bool :=
  existsb
    (fun alt =>
       match JsString.match_ci alt value with
       | Some rest => if end_anchored r then JsString.is_empty rest else true
       | None => false
       end)
    (alternatives r).

(* ===================================================================== *)
(** ** env-config.js: the process the module runs in *)
(* ===================================================================== *)

(** A file of the working directory as [fs] sees it: [existsSync] is true
    for both, [readFileSync] throws on the second. *)
Inductive file_state : Type :=
| Readable (content : string)
| Unreadable (message : string).

Inductive console_method : Type := console_log | console_warn | console_error.

(** The messages of the module, with the values interpolated into them. *)
Inductive env_message : Type :=
| MsgLoaded (file : string)
| MsgInvalidLine (filePath : string) (lineNumber : nat) (line : string)
| MsgErrorLoading (filePath : string) (message : string)
| MsgMissing (keys : list string)
| MsgInsecure (keys : list string)
| MsgValidated (environment : string)
| MsgEnvironment (environment : string)
| MsgVariableCount (count : nat)
| MsgConfiguration (sanitized : gmap string string).

(** What the module reads (files below [process.cwd()], [process.env]) and
    what it writes (the console, oldest line first). *)
Record Process : Type := {
  files : gmap string file_state;
  process_env : gmap string string;
  console : list (console_method * env_message)
}.

Definition print (method : console_method) (msg : env_message) (p : Process) : Process :=
  {| files := files p; process_env := process_env p;
     console := console p ++ [(method, msg)] |}.

(** [new Error(...)] as thrown by [validateConfiguration]. *)
Inductive env_error : Type :=
| MissingRequiredError (keys : list string)
| InsecureSecretsError (keys : list string).

Definition Env (A : Type) : Type := JS Process env_error A.

Definition console_print {E} (method : console_method) (msg : env_message)
  : JS Process E unit :=
  modify (print method msg).

Definition existsSync {E} (filePath : string) : JS Process E bool :=
  gets (fun p => bool_decide (is_Some (files p !! filePath))).

(** [fs.readFileSync(filePath, 'utf8')]; throws the error's message. *)
Definition readFileSync (filePath : string) : JS Process string string :=
  fun p =>
    match files p !! filePath with
    | Some (Readable content) => (Returned content, p)
    | Some (Unreadable message) => (Thrown message, p)
    | None => (Thrown "ENOENT: no such file or directory", p)
    end.

(** JavaScript truthiness of [obj[key]] for a dictionary of strings:
    [undefined] and the empty string are falsy. *)
Definition truthy (value : option string) : bool :=
  match value with
  | Some s => negb (JsString.is_empty s)
  | None => false
  end.

(** [set.add(v)] on a [Set] kept in insertion order. *)
Definition set_add (v : string) (s : list string) : list string :=
  if bool_decide (v ∈ s) then s else s ++ [v].

Definition set_add_all (vars : list string) (s : list string) : list string :=
  fold_left (fun acc v => set_add v acc) vars s.

(* ===================================================================== *)
(** ** env-config.js: class EnvironmentConfig *)
(* ===================================================================== *)

Record EnvironmentConfig : Type := {
  environment : string;
  requiredVars : list string;
  secretVars : list string;
  config : gmap string string
}.

Definition set_config (cfg : gmap string string) (this : EnvironmentConfig)
  : EnvironmentConfig :=
  {| environment := environment this; requiredVars := requiredVars this;
     secretVars := secretVars this; config := cfg |}.

(** *** loadEnvFile *)

(** The [line.match] of [loadEnvFile], whose pattern is: start of input, a
    group of one or more characters other than [=], an [=], a group of any
    number of characters other than line terminators, end of input.  The
    key is what precedes the first [=] and is not empty; the value is the
    rest and holds no line terminator. *)
Definition match_key_value (line : string) : option (string * string) :=
  match JsString.break_at "="%char line with
  | Some (key, value) =>
      if JsString.is_empty key then None
      else if JsString.forallb_string (fun c => negb (JsString.is_line_terminator c)) value
           then Some (key, value)
           else None
  | None => None
  end.

Definition double_quote : string := String "034"%char EmptyString.

Definition single_quote : string := String "039"%char EmptyString.

(** Removes one pair of surrounding double or single quotes. *)
Definition strip_quotes (cleanValue : string) : string :=
  if (JsString.startsWith double_quote cleanValue
      && JsString.endsWith_char "034"%char cleanValue)
     || (JsString.startsWith single_quote cleanValue
         && JsString.endsWith_char "039"%char cleanValue)
  then JsString.slice_1_m1 cleanValue
  else cleanValue.

Inductive parsed_line : Type :=
| Skipped
| Assignment (cleanKey cleanValue : string)
| InvalidLine (line : string).

Definition parse_line (line : string) : parsed_line :=
  let line := JsString.trim line in
  if JsString.is_empty line || JsString.startsWith "#" line then Skipped
  else match match_key_value line with
       | Some (key, value) =>
           Assignment (JsString.trim key) (strip_quotes (JsString.trim value))
       | None => InvalidLine line
       end.

(** The body of [lines.forEach((line, index) => ...)]. *)
Definition load_line {E} (filePath : string) (this : EnvironmentConfig)
    (line : string) (index : nat) : JS Process E EnvironmentConfig :=
  match parse_line line with
  | Skipped => ret this
  | Assignment cleanKey cleanValue =>
      (* Only set if not already defined (precedence) *)
      match config this !! cleanKey with
      | None => ret (set_config (<[cleanKey := cleanValue]> (config this)) this)
      | Some _ => ret this
      end
  | InvalidLine line =>
      run console_print console_warn (MsgInvalidLine filePath (index + 1) line) then
      ret this
  end.

Fixpoint load_lines {E} (filePath : string) (lines : list string) (index : nat)
    (this : EnvironmentConfig) : JS Process E EnvironmentConfig :=
  match lines with
  | [] => ret this
  | line :: rest =>
      let* this' := load_line filePath this line index in
      load_lines filePath rest (S index) this'
  end.

Definition loadEnvFile {E} (filePath : string) (this : EnvironmentConfig)
  : JS Process E EnvironmentConfig :=
  try_catch
    (let* content := readFileSync filePath in
     let lines := JsString.split "010"%char content in
     load_lines filePath lines 0 this)
    (fun message =>
       run console_print console_error (MsgErrorLoading filePath message) then
       ret this).

(** *** loadEnvironmentFiles *)

Definition envFiles (this : EnvironmentConfig) : list string :=
  [".env"; ".env." ++ environment this; ".env.local"].

Fixpoint load_files {E} (names : list string) (this : EnvironmentConfig)
  : JS Process E EnvironmentConfig :=
  match names with
  | [] => ret this
  | file :: rest =>
      let* present := existsSync file in
      if present : bool then
        let* this' := loadEnvFile file this in
        run console_print console_log (MsgLoaded file) then
        load_files rest this'
      else load_files rest this
  end.

(** [{ ...this.config, ...process.env }]: the right operand wins. *)
Definition spread (left right : gmap string string) : gmap string string :=
  right ∪ left.

Definition loadEnvironmentFiles {E} (this : EnvironmentConfig)
  : JS Process E EnvironmentConfig :=
  let* this' := load_files (envFiles this) this in
  let* env := gets process_env in
  (* Process environment variables always take precedence *)
  ret (set_config (spread (config this') env) this').

(** *** require, secrets *)

Definition set_requiredVars (vars : list string) (this : EnvironmentConfig)
  : EnvironmentConfig :=
  {| environment := environment this; requiredVars := vars;
     secretVars := secretVars this; config := config this |}.

Definition set_secretVars (vars : list string) (this : EnvironmentConfig)
  : EnvironmentConfig :=
  {| environment := environment this; requiredVars := requiredVars this;
     secretVars := vars; config := config this |}.

Definition require (vars : list string) (this : EnvironmentConfig) : EnvironmentConfig :=
  set_requiredVars (set_add_all vars (requiredVars this)) this.

Definition secrets (vars : list string) (this : EnvironmentConfig) : EnvironmentConfig :=
  set_secretVars (set_add_all vars (secretVars this)) this.

(** *** get, getInt *)

(** A number as [parseInt] produces it: not-a-number or an integer (the
    mathematical value; the source rounds it to the nearest double). *)
Inductive number : Type :=
| NaN
| Num (z : Z).

(** The values the accessors take as defaults and return. *)
Inductive value : Type :=
| undefined
| Str (s : string)
| Number (n : number).

Definition get (this : EnvironmentConfig) (key : string) (defaultValue : value) : value :=
  match config this !! key with
  | Some s => Str s
  | None => defaultValue
  end.

Definition digit_value (c : ascii) : option Z :=
  let n := nat_of_ascii c in
  if (48 <=? n)%nat && (n <=? 57)%nat then Some (Z.of_nat (n - 48)) else None.

(** The value of the longest prefix of decimal digits, [None] when the
    string does not start with a digit. *)
Fixpoint leading_digits (s : string) (acc : option Z) : option Z :=
  match s with
  | String c s' =>
      match digit_value c with
      | Some d => leading_digits s' (Some (10 * default 0%Z acc + d)%Z)
      | None => acc
      end
  | EmptyString => acc
  end.

(** [ToString] of the argument of [parseInt] (integers print in decimal
    notation, as they do below 10^21). *)
Definition ToString (v : value) : string :=
  match v with
  | undefined => "undefined"
  | Str s => s
  | Number NaN => "NaN"
  | Number (Num z) => NilZero.string_of_int (Z.to_int z)
  end.

(** [parseInt(v, 10)]: leading white space is dropped, one sign is
    accepted, the longest run of digits is read and what follows it is
    ignored; no digit at all gives [NaN]. *)
Definition parseInt (v : value) : number :=
  let trimmed := JsString.trimStart (ToString v) in
  let '(sign, digits) :=
    match trimmed with
    | String "-"%char rest => ((-1)%Z, rest)
    | String "+"%char rest => (1%Z, rest)
    | _ => (1%Z, trimmed)
    end in
  match leading_digits digits None with
  | Some mathInt => Num (sign * mathInt)
  | None => NaN
  end.

Definition getInt (this : EnvironmentConfig) (key : string) (defaultValue : value) : value :=
  match get this key defaultValue with
  | undefined => undefined
  | v => Number (parseInt v)
  end.

(** *** isInsecureSecret, validateConfiguration *)

Definition insecurePatterns : list regexp :=
  [ {| alternatives := ["dev"; "development"; "test"; "staging"; "demo"];
       end_anchored := false |};
    {| alternatives := ["your-"; "change-this"; "replace-with"; "example"];
       end_anchored := false |};
    {| alternatives := ["secret"; "password"; "key"];
       end_anchored := true |};
    {| alternatives := ["123"; "abc"; "test"];
       end_anchored := false |} ].

Definition isInsecureSecret (key value : string) : bool :=
  existsb (fun pattern => regexp_test pattern value) insecurePatterns
  || (String.length value <? 16)%nat.

(** The [missing] array: required keys whose value is falsy. *)
Definition missing_keys (this : EnvironmentConfig) : list string :=
  List.filter (fun key => negb (truthy (config this !! key))) (requiredVars this).

(** The [insecure] array: filled in production only. *)
Definition insecure_keys (this : EnvironmentConfig) : list string :=
  if String.eqb (environment this) "production" then
    List.filter
      (fun key =>
         match config this !! key with
         | Some value => negb (JsString.is_empty value) && isInsecureSecret key value
         | None => false
         end)
      (secretVars this)
  else [].

Definition validateConfiguration (this : EnvironmentConfig) : Env unit :=
  let missing := missing_keys this in
  let insecure := insecure_keys this in
  if (0 <? length missing)%nat then
    run console_print console_error (MsgMissing missing) then
    throw (MissingRequiredError missing)
  else if (0 <? length insecure)%nat then
    run console_print console_error (MsgInsecure insecure) then
    throw (InsecureSecretsError insecure)
  else
    console_print console_log (MsgValidated (environment this)).

(** *** getSanitizedConfig, logConfiguration *)

Definition MASKED : string := "***MASKED***".

Definition mask_key (sanitized : gmap string string) (key : string)
  : gmap string string :=
  if truthy (sanitized !! key) then <[key := MASKED]> sanitized else sanitized.

Definition getSanitizedConfig (this : EnvironmentConfig) : gmap string string :=
  fold_left mask_key (secretVars this) (config this).

Definition logConfiguration (this : EnvironmentConfig) : Env unit :=
  run console_print console_log (MsgEnvironment (environment this)) then
  run console_print console_log (MsgVariableCount (size (config this))) then
  let* logLevel := gets (fun p => process_env p !! "LOG_LEVEL") in
  if bool_decide (logLevel = Some "debug")
  then console_print console_log (MsgConfiguration (getSanitizedConfig this))
  else ret tt.

(** *** constructor and module initialisation *)

(** [a || b] on an environment variable. *)
Definition or_else (a : option string) (b : string) : string :=
  match a with
  | Some s => if JsString.is_empty s then b else s
  | None => b
  end.

Definition constructor : Env EnvironmentConfig :=
  let* nodeEnv := gets (fun p => process_env p !! "NODE_ENV") in
  let this :=
    {| environment := or_else nodeEnv "development";
       requiredVars := [];
       secretVars := set_add_all ["SESSION_SECRET"; "JWT_SECRET"; "MONGODB_URI"] [];
       config := ∅ |} in
  let* this := loadEnvironmentFiles this in
  run validateConfiguration this then
  ret this.

(** The statements after the class: the singleton is built, then the
    required and secret variables are registered, then the summary is
    logged unless the tests run. *)
Definition module_init : Env EnvironmentConfig :=
  let* envConfig := constructor in
  let envConfig :=
    secrets ["SESSION_SECRET"; "JWT_SECRET"; "MONGODB_URI"]
      (require ["NODE_ENV"; "PORT"; "MONGODB_URI"] envConfig) in
  let* nodeEnv := gets (fun p => process_env p !! "NODE_ENV") in
  run (if bool_decide (nodeEnv = Some "test") then ret tt
       else logConfiguration envConfig) then
  ret envConfig.

(** A process before the module is loaded. *)
Definition start (fs : gmap string file_state) (env : gmap string string) : Process :=
  {| files := fs; process_env := env; console := [] |}.

(* ===================================================================== *)
(** ** server.js: the process around the database connection *)
(* ===================================================================== *)

Inductive log_method : Type := log_info | log_error | log_warn | log_debug.

(** The messages of the connection and probe code, with the values
    interpolated into them. *)
Inductive server_message : Type :=
| MsgAttempting (attempt maxRetries : nat)
| MsgConnected
| MsgAttemptFailed (attempt : nat) (message : string)
| MsgMaxRetries
| MsgRetrying (retryDelay : Z)
| MsgFailedToConnect (message : string)
| MsgHealthCheckFailed (status state : string) (dbError : option string)
| MsgHealthEndpointError (message : string)
| MsgReadinessFailed (message : string).

(** The options object passed to [mongoose.connect]. *)
Record connect_options : Type := {
  maxPoolSize : value;
  serverSelectionTimeoutMS : value;
  socketTimeoutMS : value
}.

(** What the process does that can be observed from outside. *)
Inductive event : Type :=
| EvLog (method : log_method) (msg : server_message)
| EvConnect (uri : value) (options : connect_options)
| EvDelay (milliseconds : Z)
| EvPing
| EvExit (code : Z).

(** The surroundings of the server code.  [readyState] is
    [mongoose.connection.readyState], maintained by the driver and only
    read by the program.  The [n]-th call of [mongoose.connect], of
    [admin().ping()] and of [Date.now()] is answered by [connect_result n],
    [ping_result n] and [clock n]; [None] means the promise resolves,
    [Some message] that it rejects with an error of that message (a probe
    the driver gives up on is such a rejection). *)
Record Server : Type := {
  readyState : Z;
  connect_result : nat -> option string;
  connects : nat;
  ping_result : nat -> option string;
  pings : nat;
  clock : nat -> Z;
  clock_reads : nat;
  events : list event;
  exit_code : option Z
}.

Definition emit (e : event) (w : Server) : Server :=
  {| readyState := readyState w;
     connect_result := connect_result w; connects := connects w;
     ping_result := ping_result w; pings := pings w;
     clock := clock w; clock_reads := clock_reads w;
     events := events w ++ [e];
     exit_code := exit_code w |}.

Definition Srv (A : Type) : Type := JS Server string A.

(** [await mongoose.connect(uri, options)] *)
Definition mongoose_connect (uri : value) (options : connect_options) : Srv unit :=
  fun w =>
    let w' :=
      {| readyState := readyState w;
         connect_result := connect_result w; connects := S (connects w);
         ping_result := ping_result w; pings := pings w;
         clock := clock w; clock_reads := clock_reads w;
         events := events w ++ [EvConnect uri options];
         exit_code := exit_code w |} in
    match connect_result w (connects w) with
    | None => (Returned tt, w')
    | Some message => (Thrown message, w')
    end.

(** [await mongoose.connection.db.admin().ping()] *)
Definition admin_ping : Srv unit :=
  fun w =>
    let w' :=
      {| readyState := readyState w;
         connect_result := connect_result w; connects := connects w;
         ping_result := ping_result w; pings := S (pings w);
         clock := clock w; clock_reads := clock_reads w;
         events := events w ++ [EvPing];
         exit_code := exit_code w |} in
    match ping_result w (pings w) with
    | None => (Returned tt, w')
    | Some message => (Thrown message, w')
    end.

(** [Date.now()] *)
Definition Date_now : Srv Z :=
  fun w =>
    (Returned (clock w (clock_reads w)),
     {| readyState := readyState w;
        connect_result := connect_result w; connects := connects w;
        ping_result := ping_result w; pings := pings w;
        clock := clock w; clock_reads := S (clock_reads w);
        events := events w;
        exit_code := exit_code w |}).

(** [await new Promise(resolve => setTimeout(resolve, ms))] *)
Definition sleep (ms : Z) : Srv unit := modify (emit (EvDelay ms)).

(** [process.exit(code)]: the first exit code is the one the process ends
    with. *)
Definition process_exit (code : Z) : Srv unit :=
  fun w =>
    (Returned tt,
     {| readyState := readyState w;
        connect_result := connect_result w; connects := connects w;
        ping_result := ping_result w; pings := pings w;
        clock := clock w; clock_reads := clock_reads w;
        events := events w ++ [EvExit code];
        exit_code := match exit_code w with Some c => Some c | None => Some code end |}).

(** The response a handler sends with [res.status(code).json(body)].  The
    fields that carry no decision (timestamp, service, version, uptime,
    memory figures) are left out. *)
Record database_status : Type := {
  state : string;
  healthy : bool;
  error : option string;
  responseTime : option Z
}.

Inductive body : Type :=
| HealthBody (status : string) (database : database_status)
| HealthErrorBody (status : string) (message : string)
| ReadyBody (status : string) (reason : option string) (message : option string)
| LiveBody (status : string).

Record response : Type := {
  statusCode : Z;
  json : body
}.

Section ServerCode.

(** The singleton exported by env-config.js. *)
Variable envConfig : EnvironmentConfig.

Definition logLevel : value := get envConfig "LOG_LEVEL" (Str "info").

(** [['debug', 'info', 'warn', 'error'].includes(logLevel)] *)
Definition level_enabled : bool :=
  match logLevel with
  | Str s => bool_decide (s ∈ ["debug"; "info"; "warn"; "error"])
  | _ => false
  end.

(** [log.info], [log.error], [log.warn] print under the same test;
    [log.debug] prints at level [debug] only. *)
Definition log (method : log_method) (msg : server_message) : Srv unit :=
  let enabled :=
    match method with
    | log_debug => match logLevel with Str s => String.eqb s "debug" | _ => false end
    | _ => level_enabled
    end in
  if enabled then modify (emit (EvLog method msg)) else ret tt.

Definition mongoUri : value := get envConfig "MONGODB_URI" undefined.
Definition dbMaxPoolSize : value := getInt envConfig "DB_MAX_POOL_SIZE" (Number (Num 10)).
Definition dbServerSelectionTimeout : value :=
  getInt envConfig "DB_SERVER_SELECTION_TIMEOUT" (Number (Num 5000)).
Definition dbSocketTimeout : value :=
  getInt envConfig "DB_SOCKET_TIMEOUT" (Number (Num 45000)).

Definition connection_options : connect_options :=
  {| maxPoolSize := dbMaxPoolSize;
     serverSelectionTimeoutMS := dbServerSelectionTimeout;
     socketTimeoutMS := dbSocketTimeout |}.

(** *** connectWithRetry *)

(** How one turn of the [for] loop ends: by [return], or by reaching the
    end of the [catch] block. *)
Inductive turn : Type := Finished | NextAttempt.

(** The loop [for (let attempt = 1; attempt <= maxRetries; attempt++)],
    entered at [attempt] with [remaining = maxRetries + 1 - attempt] turns
    left, so that the loop test holds exactly when [remaining] is positive. *)
Fixpoint retry_loop (maxRetries : nat) (retryDelay : Z) (remaining attempt : nat)
  : Srv unit :=
  match remaining with
  | 0 => ret tt
  | S remaining' =>
      let* t :=
        try_catch
          (run log log_info (MsgAttempting attempt maxRetries) then
           run mongoose_connect mongoUri connection_options then
           run log log_info MsgConnected then
           ret Finished)
          (fun message =>
             run log log_error (MsgAttemptFailed attempt message) then
             if (attempt =? maxRetries)%nat then
               run log log_error MsgMaxRetries then
               throw message
             else
               run log log_info (MsgRetrying retryDelay) then
               run sleep retryDelay then
               ret NextAttempt) in
      match t with
      | Finished => ret tt
      | NextAttempt => retry_loop maxRetries retryDelay remaining' (S attempt)
      end
  end.

Definition connectWithRetry : Srv unit :=
  let maxRetries := 10%nat in
  let retryDelay := 5000%Z in
  retry_loop maxRetries retryDelay maxRetries 1.

(** [connectWithRetry().catch(error => { log.error(...); process.exit(1) })] *)
Definition initialize_connection : Srv unit :=
  try_catch connectWithRetry
    (fun message =>
       run log log_error (MsgFailedToConnect message) then
       process_exit 1).

(** *** GET /health, GET /ready, GET /live *)

Definition dbStates (dbState : Z) : option string :=
  if (dbState =? 0)%Z then Some "disconnected"
  else if (dbState =? 1)%Z then Some "connected"
  else if (dbState =? 2)%Z then Some "connecting"
  else if (dbState =? 3)%Z then Some "disconnecting"
  else None.

(** The database part of the health check: the state is read, and the
    database is pinged when the state is 1. *)
Definition check_database : Srv (string * database_status) :=
  let* dbStartTime := Date_now in
  let* dbState := gets readyState in
  let label := default "unknown" (dbStates dbState) in
  if (dbState =? 1)%Z then
    try_catch
      (run admin_ping then
       let* now := Date_now in
       ret ("healthy",
            {| state := label; healthy := true; error := None;
               responseTime := Some (now - dbStartTime)%Z |}))
      (fun message =>
         let* now := Date_now in
         ret ("unhealthy",
              {| state := label; healthy := false; error := Some message;
                 responseTime := Some (now - dbStartTime)%Z |}))
  else
    ret ("unhealthy",
         {| state := label; healthy := false;
            error := Some ("Database is " ++ label);
            responseTime := None |}).

Definition health : Srv response :=
  try_catch
    (let* checked := check_database in
     let status := fst checked in
     let database := snd checked in
     let code := if String.eqb status "healthy" then 200%Z else 503%Z in
     (* Log health check failures for monitoring *)
     run (if (code =? 200)%Z then ret tt
          else log log_warn
                 (MsgHealthCheckFailed status (state database) (error database))) then
     ret {| statusCode := code; json := HealthBody status database |})
    (fun message =>
       run log log_error (MsgHealthEndpointError message) then
       ret {| statusCode := 503; json := HealthErrorBody "unhealthy" message |}).

Definition ready : Srv response :=
  try_catch
    (let* dbState := gets readyState in
     if (dbState =? 1)%Z then
       (* Perform a quick database operation to ensure readiness *)
       run admin_ping then
       ret {| statusCode := 200; json := ReadyBody "ready" None None |}
     else
       ret {| statusCode := 503;
              json := ReadyBody "not ready" (Some "Database not connected") None |})
    (fun message =>
       run log log_error (MsgReadinessFailed message) then
       ret {| statusCode := 503;
              json := ReadyBody "not ready" None (Some message) |}).

Definition live : Srv response :=
  ret {| statusCode := 200; json := LiveBody "alive" |}.

End ServerCode.

(* ===================================================================== *)
(** ** The design document's vocabulary *)
(* ===================================================================== *)

(** *** The insecure-value policy, as the document words it *)

Definition lower_char (c : ascii) : ascii :=
  let n := nat_of_ascii c in
  if (65 <=? n)%nat && (n <=? 90)%nat then ascii_of_nat (n + 32) else c.

Fixpoint lower (s : string) : string :=
  match s with
  | EmptyString => EmptyString
  | String c s' => String (lower_char c) (lower s')
  end.

(** [p] is a case-insensitive prefix of [v]. *)
Definition ci_prefix (p v : string) : Prop :=
  exists rest, lower v = lower p ++ rest.

(** [p] matches [v] exactly, case-insensitively. *)
Definition ci_equal (p v : string) : Prop :=
  lower v = lower p.

Definition environment_prefixes : list string :=
  ["dev"; "development"; "test"; "staging"; "demo"].

Definition placeholder_prefixes : list string :=
  ["your-"; "change-this"; "replace-with"; "example"].

Definition trivial_prefixes : list string := ["123"; "abc"; "test"].

Definition trivial_words : list string := ["secret"; "password"; "key"].

Definition policy_insecure (v : string) : Prop :=
  (exists p, In p environment_prefixes /\ ci_prefix p v)
  \/ (exists p, In p placeholder_prefixes /\ ci_prefix p v)
  \/ (exists p, In p trivial_prefixes /\ ci_prefix p v)
  \/ (exists p, In p trivial_words /\ ci_equal p v)
  \/ String.length v < 16.

(** A production configuration holding one placeholder secret. *)
Definition production_placeholder : EnvironmentConfig :=
  {| environment := "production";
     requiredVars := [];
     secretVars := ["SESSION_SECRET"; "JWT_SECRET"; "MONGODB_URI"];
     config := <["JWT_SECRET" := "change-this-to-a-long-random-value"]> ∅ |}.

Definition newline : string := String "010"%char EmptyString.

(** *** What the loader leaves alone *)

Definition is_insecure_report (line : console_method * env_message) : bool :=
  match snd line with
  | MsgInsecure _ => true
  | _ => false
  end.

(** No line of the console reports an insecure secret. *)
Definition no_insecure_report (out : list (console_method * env_message)) : Prop :=
  Forall (fun line => is_insecure_report line = false) out.

(** From [p] to [p'] the files and the process environment are the same,
    and no report of an insecure secret was printed. *)
Definition loader_step (p p' : Process) : Prop :=
  files p' = files p
  /\ process_env p' = process_env p
  /\ (no_insecure_report (console p) -> no_insecure_report (console p')).

(** From [this] to [this'] only [config] changed, and every entry it had
    is still there with the same value. *)
Definition keeps_entries (this this' : EnvironmentConfig) : Prop :=
  environment this' = environment this
  /\ requiredVars this' = requiredVars this
  /\ secretVars this' = secretVars this
  /\ forall key v, config this !! key = Some v -> config this' !! key = Some v.

(** The shape every step of the loader has: it returns, never throws. *)
Definition loads {E} (c : JS Process E EnvironmentConfig)
    (this : EnvironmentConfig) (p : Process) : Prop :=
  exists this' p',
    c p = (Returned this', p') /\ keeps_entries this this' /\ loader_step p p'.

(** The object the constructor starts from. *)
Definition initial_config (env : gmap string string) : EnvironmentConfig :=
  {| environment := or_else (env !! "NODE_ENV") "development";
     requiredVars := [];
     secretVars := ["SESSION_SECRET"; "JWT_SECRET"; "MONGODB_URI"];
     config := ∅ |}.

(** A base file that sets NODE_ENV and a placeholder secret. *)
Definition production_in_file : gmap string file_state :=
  <[".env" := Readable ("NODE_ENV=production" ++ newline ++ "JWT_SECRET=secret")]> ∅.

(** *** Masking, as the document words it *)


(** *** What parses as an integer *)

Definition starts_with_digit (s : string) : bool :=
  match s with
  | String c _ => match digit_value c with Some _ => true | None => false end
  | EmptyString => false
  end.

(** The string without leading white space and without one leading sign. *)
Definition unsigned_part (s : string) : string :=
  match JsString.trimStart s with
  | String "-"%char rest => rest
  | String "+"%char rest => rest
  | trimmed => trimmed
  end.

(** *** Readiness and the retry schedule *)

(** The document's readiness: the connection state is Connected. *)
Definition readiness (w : Server) : bool := (readyState w =? 1)%Z.

(** The events other than log lines. *)
Definition effects (es : list event) : list event :=
  List.filter (fun e => match e with EvLog _ _ => false | _ => true end) es.

(** [n] failed attempts in a row: a connection attempt, then a delay
    before each further attempt. *)
Fixpoint failed_schedule (uri : value) (options : connect_options) (delay : Z)
    (n : nat) : list event :=
  match n with
  | 0 => []
  | 1 => [EvConnect uri options]
  | S n' => EvConnect uri options :: EvDelay delay
            :: failed_schedule uri options delay n'
  end.

(** *** Inputs of the scenarios *)

(** A base file and an environment-suffixed file that both define PORT. *)
Definition layered_files : gmap string file_state :=
  <[".env" := Readable ("PORT=3000" ++ newline)]>
    (<[".env.development" := Readable ("PORT=4000" ++ newline)]> ∅).

Definition base_file : gmap string file_state :=
  <[".env" := Readable ("PORT=3000" ++ newline)]> ∅.

Definition port_5000 : gmap string string := <["PORT" := "5000"]> ∅.

(** A process environment with PORT empty and MONGODB_URI absent. *)
Definition incomplete_env : gmap string string :=
  <["NODE_ENV" := "development"]> (<["PORT" := ""]> ∅).

Definition with_config (cfg : gmap string string) : EnvironmentConfig :=
  {| environment := "development";
     requiredVars := ["NODE_ENV"; "PORT"; "MONGODB_URI"];
     secretVars := ["SESSION_SECRET"; "JWT_SECRET"; "MONGODB_URI"];
     config := cfg |}.

Definition empty_secret : EnvironmentConfig :=
  with_config (<["JWT_SECRET" := ""]> ∅).

Definition malformed_port : EnvironmentConfig :=
  with_config (<["PORT" := "abc"]> ∅).

(** A configuration server.js starts under, which asks for three attempts
    one second apart, under the names such settings would have. *)
Definition three_attempts : EnvironmentConfig :=
  with_config (<["DB_MAX_RETRIES" := "3"]> (<["DB_RETRY_DELAY" := "1000"]>
              (<["MONGODB_URI" := "mongodb://mongodb:27017/bb-db"]>
              (<["NODE_ENV" := "development"]> (<["PORT" := "3000"]>
              (<["ENABLE_REQUEST_LOGGING" := "true"]> ∅)))))).

Definition world (dbState : Z) (connect ping : nat -> option string) : Server :=
  {| readyState := dbState;
     connect_result := connect; connects := 0;
     ping_result := ping; pings := 0;
     clock := fun n => Z.of_nat (1000 + 7 * n); clock_reads := 0;
     events := [];
     exit_code := None |}.

(** The driver reports Connected but the database no longer answers. *)
Definition stale_connection : Server :=
  world 1 (fun _ => None) (fun _ => Some "connection timed out").

Definition disconnected : Server :=
  world 0 (fun _ => None) (fun _ => None).

Definition connecting : Server :=
  world 2 (fun _ => None) (fun _ => None).

Definition unreachable_database : Server :=
  world 0 (fun _ => Some "connect ECONNREFUSED") (fun _ => Some "not connected").

From Stdlib Require Import DecimalPos.

(* ===================================================================== *)
(** ** Further vocabulary: ordinary keys and plain lines *)
(* ===================================================================== *)

(** The names of the properties every plain object inherits from
    [Object.prototype].  A map entry stands for a property of the object's
    own; for a key in this list that the object does not hold itself,
    [obj[key]] is the inherited function (or prototype) and not
    [undefined], so the statements that speak of an absent key are made
    for the keys outside this list. *)
Definition prototype_names : list string :=
  ["constructor"; "__defineGetter__"; "__defineSetter__"; "hasOwnProperty";
   "__lookupGetter__"; "__lookupSetter__"; "isPrototypeOf";
   "propertyIsEnumerable"; "toString"; "valueOf"; "__proto__";
   "toLocaleString"].

Definition inherited (key : string) : bool :=
  existsb (String.eqb key) prototype_names.

(** No key of the list is such a name. *)
Definition ordinary (keys : list string) : Prop :=
  forallb (fun key => negb (inherited key)) keys = true.

(** A line that assigns neither [hasOwnProperty], which would replace the
    method the loader calls on [this.config] at every later assignment,
    nor [__proto__], whose assignment stores nothing. *)
Definition plain_line (line : string) : bool :=
  match parse_line line with
  | Assignment cleanKey _ =>
      negb (String.eqb cleanKey "hasOwnProperty" || String.eqb cleanKey "__proto__")
  | _ => true
  end.

Definition plain_lines (lines : list string) : Prop :=
  forallb plain_line lines = true.

(* ===================================================================== *)
(** ** Further vocabulary: what a file assigns *)
(* ===================================================================== *)

(** Every key a readable file among [names] assigns has a value in
    [this.config]. *)
Definition covers (this : EnvironmentConfig) (p : Process) (names : list string) : Prop :=
  forall file content line cleanKey cleanValue,
    In file names ->
    files p !! file = Some (Readable content) ->
    In line (JsString.split "010"%char content) ->
    parse_line line = Assignment cleanKey cleanValue ->
    is_Some (config this !! cleanKey).


(** The value of the first line, in order, that assigns [key]. *)
Fixpoint first_assignment (lines : list string) (key : string) : option string :=
  match lines with
  | [] => None
  | line :: rest =>
      match parse_line line with
      | Assignment cleanKey cleanValue =>
          if String.eqb cleanKey key then Some cleanValue
          else first_assignment rest key
      | _ => first_assignment rest key
      end
  end.

(** The lines of a file layer; none when the file is missing or cannot be
    read. *)
Definition file_lines (p : Process) (file : string) : list string :=
  match files p !! file with
  | Some (Readable content) => JsString.split "010"%char content
  | _ => []
  end.

(** [a] when it is defined, else [b]. *)
Definition or_option (a b : option string) : option string :=
  match a with
  | Some v => Some v
  | None => b
  end.

(** Three file layers that all define PORT, and a local override of HOST. *)
Definition three_layers : gmap string file_state :=
  <[".env" := Readable ("PORT=3000" ++ newline ++ "PORT=3001")]>
    (<[".env.development" := Readable ("PORT=4000" ++ newline ++ "LOG_LEVEL=debug")]>
       (<[".env.local" := Readable ("HOST=127.0.0.1" ++ newline ++ "LOG_LEVEL=warn")]> ∅)).

(** A production configuration with one strong secret; SESSION_SECRET is
    absent and MONGODB_URI is empty. *)
Definition production_strong : EnvironmentConfig :=
  {| environment := "production";
     requiredVars := [];
     secretVars := ["SESSION_SECRET"; "JWT_SECRET"; "MONGODB_URI"];
     config := <["JWT_SECRET" := "f3a9c1e7b5d2468091a7c3e5b9d1f204"]>
                 (<["MONGODB_URI" := ""]> ∅) |}.

(* ===================================================================== *)
(** ** env-config.js: getBool and getArray *)
(* ===================================================================== *)

(** [String.prototype.toLowerCase] on code units below 256: the letters A
    to Z, and the letters from U+00C0 to U+00DE other than the
    multiplication sign U+00D7, move up by 32. *)
Definition toLowerCase_char (c : ascii) : ascii :=
  let n := nat_of_ascii c in
  if ((65 <=? n)%nat && (n <=? 90)%nat)
     || ((192 <=? n)%nat && (n <=? 222)%nat && negb (n =? 215)%nat)
  then ascii_of_nat (n + 32) else c.

Fixpoint toLowerCase (s : string) : string :=
  match s with
  | EmptyString => EmptyString
  | String c s' => String (toLowerCase_char c) (toLowerCase s')
  end.

(** What callers pass as a default and get back: a [value], a boolean or
    an array of strings. *)
Inductive argument : Type :=
| Plain (v : value)
| Boolean (b : bool)
| Array (items : list string).

(** [this.get(key, defaultValue)] for a default of any kind. *)
Definition get_or (this : EnvironmentConfig) (key : string) (defaultValue : argument)
  : argument :=
  match config this !! key with
  | Some s => Plain (Str s)
  | None => defaultValue
  end.

Definition not_a_function : string := "TypeError: value.toLowerCase is not a function".

(** [getBool]: only a string has [toLowerCase]; calling it on any other
    value that is not [undefined] throws a TypeError. *)
Definition getBool (this : EnvironmentConfig) (key : string) (defaultValue : argument)
  : outcome string argument :=
  match get_or this key defaultValue with
  | Plain undefined => Returned defaultValue
  | Plain (Str s) =>
      Returned (Boolean (String.eqb (toLowerCase s) "true" || String.eqb s "1"))
  | _ => Thrown not_a_function
  end.

(** [getArray]: [this.get(key)] is a string or [undefined]. *)
Definition getArray (this : EnvironmentConfig) (key : string)
    (defaultValue : list string) : list string :=
  match get this key undefined with
  | Str s =>
      if JsString.is_empty s then defaultValue
      else List.filter (fun item => negb (JsString.is_empty item))
             (List.map JsString.trim (JsString.split ","%char s))
  | _ => defaultValue
  end.

(** The two calls of server.js. *)
Definition enableRequestLogging (envConfig : EnvironmentConfig)
  : outcome string argument :=
  getBool envConfig "ENABLE_REQUEST_LOGGING" (Boolean true).

Definition corsOrigins (envConfig : EnvironmentConfig) : list string :=
  getArray envConfig "CORS_ORIGINS" ["http://localhost:3001"].

(** *** Vocabulary for strings *)

Definition first_char (s : string) : option ascii :=
  match s with
  | String c _ => Some c
  | EmptyString => None
  end.

(** No white space at either end. *)
Definition trimmed (s : string) : Prop :=
  (forall c, first_char s = Some c -> JsString.is_white_space c = false)
  /\ (forall c, JsString.last_char s = Some c -> JsString.is_white_space c = false).

(** [c] does not occur in [s]. *)
Definition free_of (c : ascii) (s : string) : Prop :=
  JsString.forallb_string (fun d => negb (Ascii.eqb d c)) s = true.

(** [items.join(',')] *)
Fixpoint join (items : list string) : string :=
  match items with
  | [] => ""
  | [item] => item
  | item :: rest => item ++ "," ++ join rest
  end.

(** An item as [getArray] returns it unchanged: not empty, trimmed, no
    comma. *)
Definition plain_item (item : string) : Prop :=
  item <> "" /\ trimmed item /\ free_of ","%char item.

(** *** Vocabulary for lines of an environment file *)

(** No line terminator occurs in [s]. *)
Definition single_line (s : string) : Prop :=
  JsString.forallb_string (fun c => negb (JsString.is_line_terminator c)) s = true.

(** A key as a line can carry it: not empty, no white space at either
    end, no [=], and not starting with the comment sign. *)
Definition plain_key (k : string) : Prop :=
  k <> "" /\ trimmed k /\ free_of "="%char k /\ first_char k <> Some "#"%char.

(** A value that needs no quotes: one line, no white space at either end,
    and not starting with a quote. *)
Definition plain_value (v : string) : Prop :=
  single_line v /\ trimmed v
  /\ first_char v <> Some "034"%char /\ first_char v <> Some "039"%char.

(** *** Vocabulary for numbers *)

(** The decimal notation of an integer, with a minus sign when negative. *)
Definition decimal (z : Z) : string := NilZero.string_of_int (Z.to_int z).

(** Only white space. *)
Definition white_space (s : string) : Prop :=
  JsString.forallb_string JsString.is_white_space s = true.

(** The integers a double holds exactly. *)
Definition safe_integer (z : Z) : Prop := (Z.abs z <= 2 ^ 53)%Z.

(* ===================================================================== *)
(** ** server.js: further vocabulary and code *)
(* ===================================================================== *)

(** Among the [n] calls of [mongoose.connect] that start at call number
    [from], how many fail before the first one that succeeds; [None] when
    all [n] fail. *)
Fixpoint first_success (result : nat -> option string) (from n : nat) : option nat :=
  match n with
  | 0 => None
  | S n' =>
      match result from with
      | None => Some 0
      | Some _ => option_map S (first_success result (S from) n')
      end
  end.

(** The database refuses nine connection attempts and lets the tenth
    time out. *)
Definition refused_then_timed_out : Server :=
  world 0
    (fun n => Some (if (n <? 9)%nat then "connect ECONNREFUSED"
                    else "server selection timed out"))
    (fun _ => Some "not connected").

(** The database accepts the third connection attempt. *)
Definition slow_database : Server :=
  world 0
    (fun n => if (n <? 2)%nat then Some "connect ECONNREFUSED" else None)
    (fun _ => None).

(** [const isProduction = envConfig.get('NODE_ENV') === 'production'] *)
Definition isProduction (envConfig : EnvironmentConfig) : bool :=
  match get envConfig "NODE_ENV" undefined with
  | Str s => String.eqb s "production"
  | _ => false
  end.

(** Within the first line of [s]: what follows the last [@], when there
    is one. *)
Fixpoint after_last_at (s : string) : option string :=
  match s with
  | EmptyString => None
  | String c s' =>
      if JsString.is_line_terminator c then None
      else match after_last_at s' with
           | Some rest => Some rest
           | None => if Ascii.eqb c "@" then Some s' else None
           end
  end.

(** The [replace] of the start-up banner: the leftmost match of two
    slashes, as many characters of the line as possible, and an [@], is
    replaced by two slashes, the mask of a user and of a password, and an
    [@]. *)
Fixpoint mask_credentials (s : string) : string :=
  match s with
  | EmptyString => EmptyString
  | String c s' =>
      match
        (if Ascii.eqb c "/" then
           match s' with
           | String d rest => if Ascii.eqb d "/" then after_last_at rest else None
           | EmptyString => None
           end
         else None)
      with
      | Some rest => "//***:***@" ++ rest
      | None => String c (mask_credentials s')
      end
  end.

Definition undefined_replace : string :=
  "TypeError: Cannot read properties of undefined (reading 'replace')".

(** The interpolated expression of the banner line for the MongoDB URI in
    the callback of [app.listen]. *)
Definition uri_for_log (envConfig : EnvironmentConfig) : outcome string string :=
  match mongoUri envConfig with
  | Str s => Returned (mask_credentials s)
  | _ => Thrown undefined_replace
  end.

(* ===================================================================== *)
(** ** Case-insensitive matching *)
(* ===================================================================== *)

Lemma lower_canonicalize (c : ascii) :
  lower_char (JsString.canonicalize c) = lower_char c.
Proof. destruct c as [[] [] [] [] [] [] [] []]; reflexivity. Qed.

Lemma canonicalize_lower (c : ascii) :
  JsString.canonicalize (lower_char c) = JsString.canonicalize c.
Proof. destruct c as [[] [] [] [] [] [] [] []]; reflexivity. Qed.

Lemma eqb_ci_lower (a b : ascii) :
  JsString.eqb_ci a b = true <-> lower_char a = lower_char b.
Proof.
  unfold JsString.eqb_ci. rewrite Ascii.eqb_eq. split; intros H.
  - rewrite <- (lower_canonicalize a), <- (lower_canonicalize b). now rewrite H.
  - rewrite <- (canonicalize_lower a), <- (canonicalize_lower b). now rewrite H.
Qed.

Lemma match_ci_sound (p : string) : forall v rest,
  JsString.match_ci p v = Some rest -> lower v = lower p ++ lower rest.
Proof.
  induction p as [|a p IH]; intros v rest H; simpl in *.
  - now inversion H.
  - destruct v as [|b v]; [discriminate|].
    destruct (JsString.eqb_ci a b) eqn:Hab; [|discriminate].
    apply eqb_ci_lower in Hab. simpl. rewrite (IH _ _ H). now rewrite Hab.
Qed.

Lemma lower_length (s : string) : String.length (lower s) = String.length s.
Proof. induction s; simpl; congruence. Qed.

Lemma lower_empty (s : string) : lower s = "" -> s = "".
Proof. destruct s; simpl; [reflexivity | discriminate]. Qed.

Lemma match_ci_complete (p : string) : forall v r,
  lower v = lower p ++ r ->
  exists rest, JsString.match_ci p v = Some rest /\ lower rest = r.
Proof.
  induction p as [|a p IH]; intros v r H; simpl in *.
  - eauto.
  - destruct v as [|b v]; simpl in H; [discriminate|].
    injection H as Hc Hr.
    assert (JsString.eqb_ci a b = true) as -> by (apply eqb_ci_lower; congruence).
    now apply IH.
Qed.

Lemma append_empty_r (s : string) : s ++ "" = s.
Proof.
  induction s as [|c s IH]; [reflexivity|].
  change (String c (s ++ "") = String c s). now rewrite IH.
Qed.

Lemma append_cons (c : ascii) (a b : string) :
  String c a ++ b = String c (a ++ b).
Proof. reflexivity. Qed.

Lemma match_ci_prefix (p v : string) :
  (exists rest, JsString.match_ci p v = Some rest) <-> ci_prefix p v.
Proof.
  split.
  - intros [rest H]. exists (lower rest). now apply match_ci_sound.
  - intros [r H]. destruct (match_ci_complete p v r H) as (rest & Hm & _). eauto.
Qed.

Lemma match_ci_equal (p v : string) :
  JsString.match_ci p v = Some "" <-> ci_equal p v.
Proof.
  unfold ci_equal. split.
  - intros H. apply match_ci_sound in H. simpl in H.
    now rewrite H, append_empty_r.
  - intros H. destruct (match_ci_complete p v "") as (rest & Hm & Hr).
    + now rewrite H, append_empty_r.
    + apply lower_empty in Hr. now subst.
Qed.

Lemma regexp_test_prefix (alts : list string) (v : string) :
  regexp_test {| alternatives := alts; end_anchored := false |} v = true
  <-> exists p, In p alts /\ ci_prefix p v.
Proof.
  unfold regexp_test. rewrite existsb_exists. simpl. split.
  - intros (p & Hin & H). exists p. split; [assumption|].
    apply match_ci_prefix. destruct (JsString.match_ci p v); [eauto | discriminate].
  - intros (p & Hin & H). exists p. split; [assumption|].
    apply match_ci_prefix in H. destruct H as [rest ->]. reflexivity.
Qed.

Lemma regexp_test_exact (alts : list string) (v : string) :
  regexp_test {| alternatives := alts; end_anchored := true |} v = true
  <-> exists p, In p alts /\ ci_equal p v.
Proof.
  unfold regexp_test. rewrite existsb_exists. simpl. split.
  - intros (p & Hin & H). exists p. split; [assumption|].
    apply match_ci_equal. destruct (JsString.match_ci p v) as [[|c r]|]; simpl in H;
      [reflexivity | discriminate | discriminate].
  - intros (p & Hin & H). exists p. split; [assumption|].
    apply match_ci_equal in H. now rewrite H.
Qed.

Lemma isInsecureSecret_iff (key v : string) :
  isInsecureSecret key v = true <-> policy_insecure v.
Proof.
  unfold isInsecureSecret, insecurePatterns, policy_insecure.
  cbn [existsb]. rewrite !orb_true_iff.
  rewrite !regexp_test_prefix, regexp_test_exact, Nat.ltb_lt.
  unfold environment_prefixes, placeholder_prefixes, trivial_prefixes, trivial_words.
  intuition discriminate.
Qed.

(* ===================================================================== *)
(** ** The insecure-value policy *)
(* ===================================================================== *)

Lemma insecure_keys_production (this : EnvironmentConfig) (key v : string) :
  environment this = "production" ->
  In key (secretVars this) ->
  config this !! key = Some v ->
  v <> "" ->
  In key (insecure_keys this) <-> isInsecureSecret key v = true.
Proof.
  intros Henv Hin Hv Hne. unfold insecure_keys. rewrite Henv. simpl.
  rewrite filter_In, Hv.
  destruct v as [|c v]; [congruence|]. simpl. tauto.
Qed.

(** C4.  [isInsecureSecret] accepts exactly the values the policy names:
    a case-insensitive prefix among dev, development, test, staging, demo,
    or among your-, change-this, replace-with, example, or among 123, abc,
    test, a case-insensitive exact match of secret, password, key, or a
    length below 16.  In production a secret key with a non-empty value is
    listed as insecure exactly then.  Hence every value shorter than 16
    characters is insecure, "your-secret-here" is insecure and the 32-digit
    hexadecimal value is secure. *)
Theorem insecure_secret_policy :
  (forall key v, isInsecureSecret key v = true <-> policy_insecure v)
  /\ (forall this key v,
        environment this = "production" ->
        In key (secretVars this) ->
        config this !! key = Some v ->
        v <> "" ->
        (In key (insecure_keys this) <-> policy_insecure v))
  /\ (forall key v, String.length v < 16 -> isInsecureSecret key v = true)
  /\ isInsecureSecret "JWT_SECRET" "your-secret-here" = true
  /\ isInsecureSecret "JWT_SECRET" "f3a9c1e7b5d2468091a7c3e5b9d1f204" = false.
Proof.
  split; [exact isInsecureSecret_iff|].
  split.
  { intros this key v Henv Hin Hv Hne.
    rewrite (insecure_keys_production this key v Henv Hin Hv Hne).
    apply isInsecureSecret_iff. }
  split.
  { intros key v Hlen. apply isInsecureSecret_iff.
    unfold policy_insecure. tauto. }
  split; reflexivity.
Qed.

Lemma insecure_secret_policy_witness :
  (In "JWT_SECRET" (insecure_keys production_placeholder)
   <-> policy_insecure "change-this-to-a-long-random-value")
  /\ isInsecureSecret "SESSION_SECRET" "Zq8#vL2x" = true.
Proof.
  split.
  - apply (proj1 (proj2 insecure_secret_policy) production_placeholder "JWT_SECRET").
    + reflexivity.
    + simpl. tauto.
    + reflexivity.
    + discriminate.
  - apply (proj1 (proj2 (proj2 insecure_secret_policy)) "SESSION_SECRET" "Zq8#vL2x").
    simpl. lia.
Defined.

(* ===================================================================== *)
(** ** Loading the environment files *)
(* ===================================================================== *)

Example parse_line_comment : parse_line "  # a comment" = Skipped.
Proof. reflexivity. Qed.

Example parse_line_quoted : parse_line " NAME = 'x y' " = Assignment "NAME" "x y".
Proof. reflexivity. Qed.

Example parse_line_second_equals : parse_line "URI=a=b" = Assignment "URI" "a=b".
Proof. reflexivity. Qed.

Example parse_line_no_equals : parse_line "PORT 3000" = InvalidLine "PORT 3000".
Proof. reflexivity. Qed.

Example parse_line_no_key : parse_line "=3000" = InvalidLine "=3000".
Proof. reflexivity. Qed.

Example split_trailing_newline :
  JsString.split "010"%char ("A=1" ++ newline) = ["A=1"; ""].
Proof. reflexivity. Qed.

Lemma loader_step_refl (p : Process) : loader_step p p.
Proof. unfold loader_step. tauto. Qed.

Lemma loader_step_trans (p1 p2 p3 : Process) :
  loader_step p1 p2 -> loader_step p2 p3 -> loader_step p1 p3.
Proof.
  unfold loader_step. intros (Hf1 & He1 & Hc1) (Hf2 & He2 & Hc2).
  repeat split; [congruence | congruence | auto].
Qed.

Lemma loader_step_print (method : console_method) (msg : env_message) (p : Process) :
  is_insecure_report (method, msg) = false ->
  loader_step p (print method msg p).
Proof.
  intros Hmsg. unfold loader_step, print, no_insecure_report. simpl.
  repeat split. intros Hc. apply Forall_app. split; [assumption|].
  constructor; [assumption | constructor].
Qed.

Lemma keeps_entries_refl (this : EnvironmentConfig) : keeps_entries this this.
Proof. unfold keeps_entries. tauto. Qed.

Lemma keeps_entries_trans (a b c : EnvironmentConfig) :
  keeps_entries a b -> keeps_entries b c -> keeps_entries a c.
Proof.
  unfold keeps_entries. intros (He1 & Hr1 & Hs1 & Hc1) (He2 & Hr2 & Hs2 & Hc2).
  repeat split; [congruence | congruence | congruence | auto].
Qed.

Lemma load_line_loads {E} (filePath line : string) (index : nat)
    (this : EnvironmentConfig) (p : Process) :
  loads (load_line (E:=E) filePath this line index) this p.
Proof.
  unfold loads, load_line. destruct (parse_line line) as [|cleanKey cleanValue|bad].
  - exists this, p. split; [reflexivity|]. split; [apply keeps_entries_refl | apply loader_step_refl].
  - destruct (config this !! cleanKey) eqn:Hk.
    + exists this, p. split; [reflexivity|].
      split; [apply keeps_entries_refl | apply loader_step_refl].
    + eexists _, p. split; [reflexivity|]. split; [|apply loader_step_refl].
      unfold keeps_entries, set_config. simpl. repeat split.
      intros key v Hv. rewrite lookup_insert_ne; [assumption | congruence].
  - eexists this, _. split; [reflexivity|]. split; [apply keeps_entries_refl|].
    now apply loader_step_print.
Qed.

Lemma load_lines_loads {E} (filePath : string) (lines : list string) :
  forall (index : nat) (this : EnvironmentConfig) (p : Process),
    loads (load_lines (E:=E) filePath lines index this) this p.
Proof.
  induction lines as [|line rest IH]; intros index this p.
  - exists this, p. split; [reflexivity|].
    split; [apply keeps_entries_refl | apply loader_step_refl].
  - destruct (load_line_loads (E:=E) filePath line index this p)
      as (this1 & p1 & Hrun1 & Hk1 & Hs1).
    destruct (IH (S index) this1 p1) as (this2 & p2 & Hrun2 & Hk2 & Hs2).
    exists this2, p2. split.
    + simpl. unfold bind at 1. now rewrite Hrun1.
    + split; [eapply keeps_entries_trans | eapply loader_step_trans]; eassumption.
Qed.

Lemma loadEnvFile_loads {E} (filePath : string) (this : EnvironmentConfig) (p : Process) :
  loads (loadEnvFile (E:=E) filePath this) this p.
Proof.
  unfold loads, loadEnvFile, try_catch, bind at 1, readFileSync.
  destruct (files p !! filePath) as [[content|message]|].
  - destruct (load_lines_loads (E:=string) filePath
                (JsString.split "010"%char content) 0 this p)
      as (this1 & p1 & Hrun1 & Hk1 & Hs1).
    rewrite Hrun1. eauto.
  - eexists this, _. split; [reflexivity|]. split; [apply keeps_entries_refl|].
    now apply loader_step_print.
  - eexists this, _. split; [reflexivity|]. split; [apply keeps_entries_refl|].
    now apply loader_step_print.
Qed.

Lemma load_files_loads {E} (names : list string) :
  forall (this : EnvironmentConfig) (p : Process),
    loads (load_files (E:=E) names this) this p.
Proof.
  induction names as [|file rest IH]; intros this p.
  - exists this, p. split; [reflexivity|].
    split; [apply keeps_entries_refl | apply loader_step_refl].
  - simpl. unfold loads, bind at 1, existsSync, gets.
    destruct (bool_decide (is_Some (files p !! file))).
    + destruct (loadEnvFile_loads (E:=E) file this p) as (this1 & p1 & Hrun1 & Hk1 & Hs1).
      destruct (IH this1 (print console_log (MsgLoaded file) p1))
        as (this2 & p2 & Hrun2 & Hk2 & Hs2).
      exists this2, p2. split.
      * unfold bind at 1. rewrite Hrun1. unfold bind at 1. exact Hrun2.
      * split; [eapply keeps_entries_trans; eassumption|].
        eapply loader_step_trans; [eassumption|].
        eapply loader_step_trans; [|eassumption].
        now apply loader_step_print.
    + apply IH.
Qed.

(** [loadEnvironmentFiles] returns, and the configuration it leaves is the
    file layers overlaid with the process environment. *)
Lemma loadEnvironmentFiles_overlay {E} (this : EnvironmentConfig) (p : Process) :
  exists this' p',
    loadEnvironmentFiles (E:=E) this p
    = (Returned (set_config (process_env p ∪ config this') this'), p')
    /\ keeps_entries this this' /\ loader_step p p'.
Proof.
  destruct (load_files_loads (E:=E) (envFiles this) this p)
    as (this1 & p1 & Hrun1 & Hk1 & Hs1).
  exists this1, p1. split; [|tauto].
  unfold loadEnvironmentFiles, bind at 1. rewrite Hrun1.
  unfold bind, gets, ret, spread. destruct Hs1 as (_ & -> & _). reflexivity.
Qed.

(* ===================================================================== *)
(** ** The constructor and the module initialisation *)
(* ===================================================================== *)

(** The constructor validates while no key is required yet: it can only
    fail on an insecure secret. *)
Lemma constructor_outcome (p : Process) :
  exists this1 p1,
    keeps_entries (initial_config (process_env p)) this1
    /\ loader_step p p1
    /\ let this := set_config (process_env p ∪ config this1) this1 in
       constructor p =
       match insecure_keys this with
       | [] => (Returned this, print console_log (MsgValidated (environment this)) p1)
       | _ :: _ =>
           (Thrown (InsecureSecretsError (insecure_keys this)),
            print console_error (MsgInsecure (insecure_keys this)) p1)
       end.
Proof.
  destruct (loadEnvironmentFiles_overlay (E:=env_error) (initial_config (process_env p)) p)
    as (this1 & p1 & Hrun & Hkeep & Hstep).
  exists this1, p1. split; [assumption|]. split; [assumption|].
  unfold constructor, bind at 1, gets.
  change (set_add_all ["SESSION_SECRET"; "JWT_SECRET"; "MONGODB_URI"] [])
    with ["SESSION_SECRET"; "JWT_SECRET"; "MONGODB_URI"].
  fold (initial_config (process_env p)).
  unfold bind at 1. rewrite Hrun. cbv zeta.
  set (this := set_config (process_env p ∪ config this1) this1).
  unfold bind at 1, validateConfiguration.
  assert (missing_keys this = []) as ->.
  { unfold missing_keys, this. simpl.
    destruct Hkeep as (_ & -> & _). reflexivity. }
  simpl. destruct (insecure_keys this) as [|k ks]; reflexivity.
Qed.

Lemma insecure_keys_outside_production (this : EnvironmentConfig) :
  environment this <> "production" -> insecure_keys this = [].
Proof.
  intros Hne. unfold insecure_keys.
  destruct (String.eqb (environment this) "production") eqn:Heq; [|reflexivity].
  apply String.eqb_eq in Heq. contradiction.
Qed.

Lemma logConfiguration_returns (this : EnvironmentConfig) (p : Process) :
  exists p', logConfiguration this p = (Returned tt, p').
Proof.
  unfold logConfiguration, bind, console_print, modify, gets. simpl.
  destruct (bool_decide _); eauto.
Qed.

(** With the keys registered, validation does report what is missing. *)
Lemma validateConfiguration_missing (this : EnvironmentConfig) (p : Process) :
  missing_keys this <> [] ->
  validateConfiguration this p
  = (Thrown (MissingRequiredError (missing_keys this)),
     print console_error (MsgMissing (missing_keys this)) p).
Proof.
  intros Hne. unfold validateConfiguration.
  destruct (missing_keys this) as [|k ks]; [congruence | reflexivity].
Qed.

Lemma missing_keys_spec (this : EnvironmentConfig) (key : string) :
  In key (missing_keys this)
  <-> In key (requiredVars this)
      /\ (config this !! key = None \/ config this !! key = Some "").
Proof.
  unfold missing_keys. rewrite filter_In.
  destruct (config this !! key) as [[|c s]|]; simpl; intuition congruence.
Qed.

(** Loading the module either succeeds or fails on an insecure secret. *)
Lemma module_init_outcome (fs : gmap string file_state) (env : gmap string string) :
  (exists envConfig p', module_init (start fs env) = (Returned envConfig, p'))
  \/ (exists keys p',
        module_init (start fs env) = (Thrown (InsecureSecretsError keys), p')).
Proof.
  destruct (constructor_outcome (start fs env)) as (this1 & p1 & _ & _ & Hrun).
  cbv zeta in Hrun.
  destruct (insecure_keys _) as [|k ks]; [left | right];
    unfold module_init, bind at 1; rewrite Hrun;
    [|eexists _, _; reflexivity].
  unfold bind at 1, gets. unfold bind at 1.
  destruct (bool_decide _).
  - eexists _, _. reflexivity.
  - match goal with
    | |- context [logConfiguration ?t ?q] =>
        destruct (logConfiguration_returns t q) as (p' & ->)
    end.
    eexists _, _. reflexivity.
Qed.

(** C1.  Evaluation of the module initialisation where PORT is empty and
    MONGODB_URI is absent: the constructor has validated before [require]
    registers NODE_ENV, PORT and MONGODB_URI, so the module loads without
    an error although two required keys are missing.  Whatever the files
    and the environment, loading the module succeeds or fails on an
    insecure secret: it never fails on a missing key. *)
Theorem required_keys_registered_after_validation :
  (exists envConfig p',
      module_init (start ∅ incomplete_env) = (Returned envConfig, p')
      /\ requiredVars envConfig = ["NODE_ENV"; "PORT"; "MONGODB_URI"]
      /\ config envConfig !! "PORT" = Some ""
      /\ config envConfig !! "MONGODB_URI" = None
      /\ missing_keys envConfig = ["PORT"; "MONGODB_URI"]
      /\ console p' = [(console_log, MsgValidated "development");
                       (console_log, MsgEnvironment "development");
                       (console_log, MsgVariableCount 2)])
  /\ (forall fs env,
        (exists envConfig p', module_init (start fs env) = (Returned envConfig, p'))
        \/ (exists keys p',
              module_init (start fs env) = (Thrown (InsecureSecretsError keys), p'))).
Proof.
  split; [|exact module_init_outcome].
  eexists _, _. split; [vm_compute; reflexivity|].
  repeat split; vm_compute; reflexivity.
Qed.

(** C2.  Evaluation of the loader on a base file with PORT=3000 and an
    environment-suffixed file with PORT=4000, PORT absent from the process
    environment: both files are loaded, the base file first, and PORT
    resolves to the base file's value. *)
Theorem base_file_value_is_kept :
  exists envConfig p',
    module_init (start layered_files ∅) = (Returned envConfig, p')
    /\ environment envConfig = "development"
    /\ config envConfig !! "PORT" = Some "3000"
    /\ console p' = [(console_log, MsgLoaded ".env");
                     (console_log, MsgLoaded ".env.development");
                     (console_log, MsgValidated "development");
                     (console_log, MsgEnvironment "development");
                     (console_log, MsgVariableCount 1)].
Proof.
  eexists _, _. split; [vm_compute; reflexivity|].
  repeat split; vm_compute; reflexivity.
Qed.

(** C3.  Whatever the files hold, every key of the process environment
    resolves to its process-environment value: after
    [loadEnvironmentFiles], and so in every object the constructor
    returns.  A base file with PORT=3000 under a process environment with
    PORT=5000 resolves PORT to 5000. *)
Theorem process_environment_wins :
  (forall (fs : gmap string file_state) (env : gmap string string)
          (out : list (console_method * env_message))
          (this : EnvironmentConfig) (key v : string),
      env !! key = Some v ->
      exists this' p',
        loadEnvironmentFiles (E:=env_error) this
          {| files := fs; process_env := env; console := out |}
        = (Returned this', p')
        /\ config this' !! key = Some v)
  /\ (forall fs env key v this p',
        env !! key = Some v ->
        constructor (start fs env) = (Returned this, p') ->
        config this !! key = Some v)
  /\ (exists envConfig p',
        module_init (start base_file port_5000) = (Returned envConfig, p')
        /\ config envConfig !! "PORT" = Some "5000").
Proof.
  split.
  { intros fs env out this key v Hv.
    destruct (loadEnvironmentFiles_overlay (E:=env_error) this
                {| files := fs; process_env := env; console := out |})
      as (this1 & p1 & Hrun & _ & _).
    eexists _, p1. split; [exact Hrun|].
    simpl. now apply lookup_union_Some_l. }
  split.
  { intros fs env key v this p' Hv Hrun.
    destruct (constructor_outcome (start fs env)) as (this1 & p1 & _ & _ & Hc).
    cbv zeta in Hc. rewrite Hc in Hrun.
    destruct (insecure_keys _); [|discriminate].
    injection Hrun as <- _. simpl. now apply lookup_union_Some_l. }
  eexists _, _. split; vm_compute; reflexivity.
Qed.

Lemma process_environment_wins_witness :
  (exists this' p',
      loadEnvironmentFiles (E:=env_error) (initial_config port_5000)
        {| files := layered_files; process_env := port_5000; console := [] |}
      = (Returned this', p')
      /\ config this' !! "PORT" = Some "5000")
  /\ (forall this p',
        constructor (start layered_files port_5000) = (Returned this, p') ->
        config this !! "PORT" = Some "5000").
Proof.
  split.
  - apply (proj1 process_environment_wins layered_files port_5000 []
             (initial_config port_5000) "PORT" "5000").
    reflexivity.
  - intros this p'.
    apply (proj1 (proj2 process_environment_wins) layered_files port_5000
             "PORT" "5000" this p').
    reflexivity.
Defined.

(** C10.  When NODE_ENV is absent from the process environment the
    constructor labels the environment "development", performs no
    insecure-secret check and returns: it does not fail and prints no
    report of an insecure secret, whatever the files hold.  Any validation
    under a label other than "production" behaves so. *)
Theorem absent_NODE_ENV_skips_secret_check :
  forall (fs : gmap string file_state) (env : gmap string string),
    env !! "NODE_ENV" = None ->
    (exists this p',
        constructor (start fs env) = (Returned this, p')
        /\ environment this = "development"
        /\ insecure_keys this = []
        /\ no_insecure_report (console p'))
    /\ (forall this p keys,
          environment this <> "production" ->
          fst (validateConfiguration this p) <> Thrown (InsecureSecretsError keys)
          /\ loader_step p (snd (validateConfiguration this p))).
Proof.
  intros fs env Henv. split.
  - destruct (constructor_outcome (start fs env))
      as (this1 & p1 & (He & _) & (_ & _ & Hout) & Hc).
    cbv zeta in Hc. simpl in He. rewrite Henv in He. simpl in He.
    assert (insecure_keys (set_config (env ∪ config this1) this1) = []) as Hnone.
    { apply insecure_keys_outside_production. simpl. rewrite He. discriminate. }
    simpl in Hc. rewrite Hnone in Hc.
    eexists _, _. split; [exact Hc|].
    split; [exact He|]. split; [exact Hnone|].
    unfold print, no_insecure_report. simpl.
    apply Forall_app. split.
    + apply Hout. constructor.
    + constructor; [reflexivity | constructor].
  - intros this p keys Hne. unfold validateConfiguration.
    rewrite (insecure_keys_outside_production this Hne).
    destruct (missing_keys this) as [|k ks]; simpl.
    + split; [discriminate|]. now apply loader_step_print.
    + split; [discriminate|]. now apply loader_step_print.
Qed.

Lemma absent_NODE_ENV_skips_secret_check_witness :
  (exists this p',
      constructor (start production_in_file ∅) = (Returned this, p')
      /\ environment this = "development"
      /\ insecure_keys this = []
      /\ no_insecure_report (console p'))
  /\ fst (validateConfiguration empty_secret (start ∅ ∅))
     <> Thrown (InsecureSecretsError ["JWT_SECRET"]).
Proof.
  split.
  - apply (proj1 (absent_NODE_ENV_skips_secret_check production_in_file ∅
                    (lookup_empty "NODE_ENV"))).
  - apply (proj2 (absent_NODE_ENV_skips_secret_check production_in_file ∅
                    (lookup_empty "NODE_ENV")) empty_secret (start ∅ ∅)).
    simpl. discriminate.
Defined.

(* ===================================================================== *)
(** ** The sanitized view *)
(* ===================================================================== *)

Lemma mask_key_lookup (m : gmap string string) (k key : string) :
  mask_key m k !! key
  = if truthy (m !! key) && String.eqb key k then Some MASKED else m !! key.
Proof.
  unfold mask_key. destruct (String.eqb key k) eqn:Hk.
  - apply String.eqb_eq in Hk. subst k.
    destruct (truthy (m !! key)); simpl; [apply lookup_insert_eq | reflexivity].
  - apply String.eqb_neq in Hk. rewrite andb_false_r.
    destruct (truthy (m !! k)); [|reflexivity].
    apply lookup_insert_ne. congruence.
Qed.

Lemma mask_keys_lookup (keys : list string) :
  forall (m : gmap string string) (key : string),
    fold_left mask_key keys m !! key
    = if truthy (m !! key) && existsb (String.eqb key) keys
      then Some MASKED else m !! key.
Proof.
  induction keys as [|k ks IH]; intros m key; simpl.
  - now rewrite andb_false_r.
  - rewrite IH, mask_key_lookup.
    destruct (truthy (m !! key)) eqn:Ht; simpl; [|now rewrite Ht].
    destruct (String.eqb key k); simpl; [|now rewrite Ht].
    now destruct (existsb (String.eqb key) ks).
Qed.

Lemma existsb_eqb_In (key : string) (keys : list string) :
  existsb (String.eqb key) keys = true <-> In key keys.
Proof.
  rewrite existsb_exists. split.
  - intros (k & Hin & Heq). apply String.eqb_eq in Heq. now subst.
  - intros Hin. exists key. split; [assumption | apply String.eqb_refl].
Qed.




(* ===================================================================== *)
(** ** getInt *)
(* ===================================================================== *)

Lemma leading_digits_some (s : string) :
  forall z, leading_digits s (Some z) <> None.
Proof.
  induction s as [|c s IH]; intros z; simpl; [discriminate|].
  destruct (digit_value c); [apply IH | discriminate].
Qed.

Lemma leading_digits_none (s : string) :
  leading_digits s None = None <-> starts_with_digit s = false.
Proof.
  destruct s as [|c s]; simpl; [tauto|].
  destruct (digit_value c); [|tauto].
  split; [|discriminate]. intros H. now apply leading_digits_some in H.
Qed.

Lemma parseInt_NaN_iff (s : string) :
  parseInt (Str s) = NaN <-> starts_with_digit (unsigned_part s) = false.
Proof.
  rewrite <- leading_digits_none. unfold parseInt, unsigned_part. simpl.
  set (t := JsString.trimStart s).
  assert (forall sign digits,
             match leading_digits digits None with
             | Some mathInt => Num (sign * mathInt)
             | None => NaN
             end = NaN <-> leading_digits digits None = None) as Hcase.
  { intros sign digits. destruct (leading_digits digits None); split; congruence. }
  destruct t as [|c t]; [apply Hcase|].
  destruct (Ascii.eqb c "-") eqn:Hm.
  - apply Ascii.eqb_eq in Hm. subst c. apply Hcase.
  - destruct (Ascii.eqb c "+") eqn:Hp.
    + apply Ascii.eqb_eq in Hp. subst c. apply Hcase.
    + apply Ascii.eqb_neq in Hm, Hp.
      destruct c as [[] [] [] [] [] [] [] []]; try apply Hcase; congruence.
Qed.

(** Reading an integer written in decimal notation. *)

Lemma leading_digits_digit (c : ascii) (k : Z) (s : string) (acc : option Z) :
  digit_value c = Some k ->
  leading_digits (String c s) acc
  = leading_digits s (Some (10 * default 0%Z acc + k)%Z).
Proof. intros H. simpl. now rewrite H. Qed.

Lemma leading_digits_stop (s : string) (acc : option Z) :
  starts_with_digit s = false -> leading_digits s acc = acc.
Proof.
  destruct s as [|c s]; simpl; [reflexivity|].
  destruct (digit_value c); [discriminate | reflexivity].
Qed.

Lemma leading_digits_uint_acc (d : Decimal.uint) :
  forall (acc : positive) (rest : string),
    leading_digits (NilEmpty.string_of_uint d ++ rest) (Some (Z.pos acc))
    = leading_digits rest (Some (Z.pos (Pos.of_uint_acc d acc))).
Proof.
  induction d as [|d IH|d IH|d IH|d IH|d IH|d IH|d IH|d IH|d IH|d IH];
    intros acc rest; cbn [NilEmpty.string_of_uint Pos.of_uint_acc];
    [reflexivity|..];
    rewrite append_cons;
    [ rewrite (leading_digits_digit "0" 0 _ _ eq_refl)
    | rewrite (leading_digits_digit "1" 1 _ _ eq_refl)
    | rewrite (leading_digits_digit "2" 2 _ _ eq_refl)
    | rewrite (leading_digits_digit "3" 3 _ _ eq_refl)
    | rewrite (leading_digits_digit "4" 4 _ _ eq_refl)
    | rewrite (leading_digits_digit "5" 5 _ _ eq_refl)
    | rewrite (leading_digits_digit "6" 6 _ _ eq_refl)
    | rewrite (leading_digits_digit "7" 7 _ _ eq_refl)
    | rewrite (leading_digits_digit "8" 8 _ _ eq_refl)
    | rewrite (leading_digits_digit "9" 9 _ _ eq_refl) ];
    rewrite <- IH; do 2 f_equal; cbn [default from_option]; unfold id; lia.
Qed.

Lemma leading_digits_uint (d : Decimal.uint) :
  forall rest : string,
    leading_digits (NilEmpty.string_of_uint d ++ rest) (Some 0%Z)
    = leading_digits rest (Some (Z.of_N (Pos.of_uint d))).
Proof.
  induction d as [|d IH|d IH|d IH|d IH|d IH|d IH|d IH|d IH|d IH|d IH];
    intros rest; cbn [NilEmpty.string_of_uint Pos.of_uint];
    [reflexivity|..];
    rewrite append_cons;
    [ rewrite (leading_digits_digit "0" 0 _ _ eq_refl); exact (IH rest)
    | rewrite (leading_digits_digit "1" 1 _ _ eq_refl)
    | rewrite (leading_digits_digit "2" 2 _ _ eq_refl)
    | rewrite (leading_digits_digit "3" 3 _ _ eq_refl)
    | rewrite (leading_digits_digit "4" 4 _ _ eq_refl)
    | rewrite (leading_digits_digit "5" 5 _ _ eq_refl)
    | rewrite (leading_digits_digit "6" 6 _ _ eq_refl)
    | rewrite (leading_digits_digit "7" 7 _ _ eq_refl)
    | rewrite (leading_digits_digit "8" 8 _ _ eq_refl)
    | rewrite (leading_digits_digit "9" 9 _ _ eq_refl) ];
    exact (leading_digits_uint_acc d _ rest).
Qed.

Lemma string_of_uint_first (d : Decimal.uint) (rest : string) :
  d <> Decimal.Nil ->
  exists c k s, NilEmpty.string_of_uint d ++ rest = String c s
                /\ digit_value c = Some k
                /\ JsString.is_white_space c = false
                /\ c <> "-"%char /\ c <> "+"%char.
Proof.
  intros Hd. destruct d; [congruence|..];
    cbn [NilEmpty.string_of_uint]; rewrite append_cons;
    eexists _, _, _; (split; [reflexivity|]);
    (split; [reflexivity|]); (split; [reflexivity|]); split; discriminate.
Qed.

(** The digits of a positive number, read from no accumulator. *)
Lemma leading_digits_pos (p : positive) (rest : string) :
  starts_with_digit rest = false ->
  leading_digits (NilEmpty.string_of_uint (Pos.to_uint p) ++ rest) None
  = Some (Z.pos p).
Proof.
  intros Hrest.
  destruct (string_of_uint_first (Pos.to_uint p) rest (DecimalPos.Unsigned.to_uint_nonnil p))
    as (c & k & s & Hs & Hc & _).
  assert (leading_digits (NilEmpty.string_of_uint (Pos.to_uint p) ++ rest) None
          = leading_digits (NilEmpty.string_of_uint (Pos.to_uint p) ++ rest) (Some 0%Z))
    as ->.
  { rewrite Hs, !(leading_digits_digit c k s _ Hc). reflexivity. }
  rewrite leading_digits_uint, DecimalPos.Unsigned.of_to.
  now apply leading_digits_stop.
Qed.

Lemma trimStart_white (ws s : string) :
  white_space ws -> JsString.trimStart (ws ++ s) = JsString.trimStart s.
Proof.
  unfold white_space. induction ws as [|c ws IH]; intros H; [reflexivity|].
  simpl in H. apply andb_true_iff in H. destruct H as [Hc Hws].
  rewrite append_cons. simpl. rewrite Hc. now apply IH.
Qed.

Lemma parseInt_unsigned (ws : string) (c : ascii) (s : string) :
  white_space ws ->
  JsString.is_white_space c = false -> c <> "-"%char -> c <> "+"%char ->
  parseInt (Str (ws ++ String c s))
  = match leading_digits (String c s) None with
    | Some mathInt => Num (1 * mathInt)
    | None => NaN
    end.
Proof.
  intros Hws Hc Hminus Hplus. unfold parseInt. cbn [ToString].
  rewrite (trimStart_white ws _ Hws).
  assert (JsString.trimStart (String c s) = String c s) as ->
    by (simpl; now rewrite Hc).
  destruct c as [[] [] [] [] [] [] [] []]; try reflexivity; congruence.
Qed.

Lemma parseInt_negative (ws s : string) :
  white_space ws ->
  parseInt (Str (ws ++ String "-"%char s))
  = match leading_digits s None with
    | Some mathInt => Num (-1 * mathInt)
    | None => NaN
    end.
Proof.
  intros Hws. unfold parseInt. cbn [ToString].
  now rewrite (trimStart_white ws _ Hws).
Qed.

Lemma parseInt_decimal (z : Z) (ws rest : string) :
  white_space ws ->
  starts_with_digit rest = false ->
  parseInt (Str (ws ++ decimal z ++ rest)) = Num z.
Proof.
  intros Hws Hrest. unfold decimal.
  destruct z as [|p|p]; cbn [Z.to_int NilZero.string_of_int].
  - change (NilZero.string_of_uint (Decimal.D0 Decimal.Nil)) with "0".
    rewrite append_cons, parseInt_unsigned; try assumption;
      [|reflexivity | discriminate | discriminate].
    rewrite (leading_digits_digit "0" 0 _ _ eq_refl).
    change ("" ++ rest) with rest. now rewrite leading_digits_stop.
  - assert (NilZero.string_of_uint (Pos.to_uint p)
            = NilEmpty.string_of_uint (Pos.to_uint p)) as ->.
    { pose proof (DecimalPos.Unsigned.to_uint_nonnil p) as Hn.
      destruct (Pos.to_uint p); [congruence | reflexivity..]. }
    destruct (string_of_uint_first (Pos.to_uint p) rest
                (DecimalPos.Unsigned.to_uint_nonnil p))
      as (c & k & s & Hs & _ & Hc & Hminus & Hplus).
    pose proof (leading_digits_pos p rest Hrest) as Hval.
    rewrite Hs in *. rewrite parseInt_unsigned by assumption.
    rewrite Hval. reflexivity.
  - assert (NilZero.string_of_uint (Pos.to_uint p)
            = NilEmpty.string_of_uint (Pos.to_uint p)) as ->.
    { pose proof (DecimalPos.Unsigned.to_uint_nonnil p) as Hn.
      destruct (Pos.to_uint p); [congruence | reflexivity..]. }
    rewrite append_cons, parseInt_negative by assumption.
    rewrite (leading_digits_pos p rest Hrest). reflexivity.
Qed.

(** C9 as worded fails on PORT=abc with default 3000: the value does not
    parse, and the call returns NaN, not the default. *)
Lemma getInt_malformed_is_NaN :
  config malformed_port !! "PORT" = Some "abc"
  /\ parseInt (Str "abc") = NaN
  /\ getInt malformed_port "PORT" (Number (Num 3000)) = Number NaN
  /\ getInt malformed_port "PORT" (Number (Num 3000)) <> Number (Num 3000).
Proof.
  assert (getInt malformed_port "PORT" (Number (Num 3000)) = Number NaN) as H
    by (vm_compute; reflexivity).
  split; [vm_compute; reflexivity|].
  split; [reflexivity|].
  split; [exact H | rewrite H; discriminate].
Qed.

(** C9, amended.  [getInt(key, default)] reads the resolved value with
    [parseInt(., 10)] and has no fallback.  When the key has a value, the
    default plays no part; the result is NaN exactly when the value does
    not start (after leading white space and one optional sign) with a
    decimal digit, and a value that consists of white space, an integer in
    decimal notation and anything that does not start with a digit is read
    as that integer (for the integers a double holds exactly).  When the
    key has no value and its name is not one every object inherits, the
    default decides: the result is [undefined] without a default, a numeric
    default is returned as it is, and a string default is parsed like a
    value. *)
Theorem getInt_parses_without_fallback :
  forall (this : EnvironmentConfig) (key : string),
    (forall (s : string) (defaultValue : value),
        config this !! key = Some s ->
        getInt this key defaultValue = getInt this key undefined
        /\ (getInt this key defaultValue = Number NaN
            <-> starts_with_digit (unsigned_part s) = false)
        /\ (forall (ws rest : string) (z : Z),
               s = ws ++ decimal z ++ rest ->
               white_space ws -> safe_integer z ->
               starts_with_digit rest = false ->
               getInt this key defaultValue = Number (Num z)))
    /\ (inherited key = false -> config this !! key = None ->
        getInt this key undefined = undefined
        /\ (forall z : Z, safe_integer z ->
               getInt this key (Number (Num z)) = Number (Num z))
        /\ (forall d : string,
               getInt this key (Str d) = Number NaN
               <-> starts_with_digit (unsigned_part d) = false)).
Proof.
  intros this key. unfold getInt, get. split.
  - intros s defaultValue ->. split; [reflexivity|]. split.
    + rewrite <- parseInt_NaN_iff. split; [congruence | now intros ->].
    + intros ws rest z -> Hws _ Hrest. f_equal. now apply parseInt_decimal.
  - intros _ ->. split; [reflexivity|]. split.
    + intros z _. f_equal.
      pose proof (parseInt_decimal z "" "" eq_refl eq_refl) as H.
      change ("" ++ decimal z ++ "") with (decimal z ++ "") in H.
      rewrite append_empty_r in H.
      unfold parseInt in *. exact H.
    + intros d. rewrite <- parseInt_NaN_iff. split; [congruence | now intros ->].
Qed.

Lemma getInt_parses_without_fallback_witness :
  getInt malformed_port "PORT" (Number (Num 3000))
  = getInt malformed_port "PORT" undefined
  /\ getInt malformed_port "PORT" (Number (Num 3000)) = Number NaN
  /\ getInt malformed_port "DB_MAX_POOL_SIZE" (Number (Num 10))
     = Number (Num 10).
Proof.
  split; [|split].
  - apply (proj1 (proj1 (getInt_parses_without_fallback malformed_port "PORT")
                    "abc" (Number (Num 3000)) eq_refl)).
  - apply (proj1 (proj2 (proj1 (getInt_parses_without_fallback malformed_port
                                  "PORT")
                           "abc" (Number (Num 3000)) eq_refl))).
    reflexivity.
  - apply (proj1 (proj2 (proj2 (getInt_parses_without_fallback malformed_port
                                  "DB_MAX_POOL_SIZE")
                           eq_refl eq_refl))).
    unfold safe_integer. vm_compute. discriminate.
Defined.

Example parseInt_default_port : parseInt (Number (Num 3000)) = Num 3000.
Proof. reflexivity. Qed.

Example parseInt_reads_a_prefix : parseInt (Str " 5000ms") = Num 5000.
Proof. reflexivity. Qed.

(* ===================================================================== *)
(** ** GET /ready *)
(* ===================================================================== *)

(** C6 as worded fails when the driver reports Connected and the ping of
    the handler fails: readiness in the document's sense is true, and the
    answer is 503. *)
Lemma ready_is_503_while_connected :
  readiness stale_connection = true
  /\ fst (ready (with_config ∅) stale_connection)
     = Returned {| statusCode := 503;
                   json := ReadyBody "not ready" None (Some "connection timed out") |}
  /\ fst (ready (with_config ∅) disconnected)
     = fst (ready (with_config ∅) connecting).
Proof. repeat split. Qed.

(** C6, amended.  [GET /ready] reads the connection state at the time of
    the query.  In a state other than Connected it answers 503 at once,
    without a ping, with the fixed reason "Database not connected".  In
    state Connected it pings the database, and answers 200 when the ping
    succeeds and 503 with the error's message when it fails.  So the
    answer is 200 exactly when the state is Connected and the ping
    succeeds, and 503 otherwise; the body names no connection state. *)
Theorem ready_is_state_and_ping :
  forall (envConfig : EnvironmentConfig) (w : Server),
  exists resp w',
    ready envConfig w = (Returned resp, w')
    /\ (statusCode resp = 200%Z
        <-> readiness w = true /\ ping_result w (pings w) = None)
    /\ (statusCode resp = 200%Z \/ statusCode resp = 503%Z)
    /\ (readiness w = false ->
        resp = {| statusCode := 503;
                  json := ReadyBody "not ready" (Some "Database not connected") None |}
        /\ w' = w)
    /\ (readiness w = true ->
        pings w' = S (pings w)
        /\ (forall message, ping_result w (pings w) = Some message ->
              resp = {| statusCode := 503;
                        json := ReadyBody "not ready" None (Some message) |})
        /\ (ping_result w (pings w) = None ->
              resp = {| statusCode := 200; json := ReadyBody "ready" None None |})).
Proof.
  intros envConfig w.
  unfold ready, try_catch, bind, gets, admin_ping, log, modify, ret, readiness.
  destruct (readyState w =? 1)%Z eqn:Hstate.
  - destruct (ping_result w (pings w)) as [message|] eqn:Hping.
    + destruct (level_enabled envConfig); simpl;
        (eexists _, _; split; [reflexivity|]; simpl;
         repeat split; try tauto; try discriminate; try congruence;
         intuition discriminate).
    + eexists _, _. split; [reflexivity|]. simpl.
      repeat split; try tauto; try discriminate; try congruence.
  - eexists _, _. split; [reflexivity|]. simpl.
    repeat split; try tauto; try discriminate; try congruence;
      intuition discriminate.
Qed.

Lemma ready_is_state_and_ping_witness :
  (exists resp w',
      ready (with_config ∅) disconnected = (Returned resp, w')
      /\ resp = {| statusCode := 503;
                   json := ReadyBody "not ready" (Some "Database not connected") None |}
      /\ w' = disconnected)
  /\ (exists resp w',
        ready (with_config ∅) stale_connection = (Returned resp, w')
        /\ pings w' = 1
        /\ resp = {| statusCode := 503;
                     json := ReadyBody "not ready" None (Some "connection timed out") |}).
Proof.
  split.
  - destruct (ready_is_state_and_ping (with_config ∅) disconnected)
      as (resp & w' & Hrun & _ & _ & Hidle & _).
    exists resp, w'. split; [exact Hrun|]. apply Hidle. reflexivity.
  - destruct (ready_is_state_and_ping (with_config ∅) stale_connection)
      as (resp & w' & Hrun & _ & _ & _ & Hconn).
    exists resp, w'. split; [exact Hrun|].
    destruct (Hconn eq_refl) as (Hpings & Hfail & _).
    split; [exact Hpings|]. apply Hfail. reflexivity.
Defined.

(* ===================================================================== *)
(** ** GET /health *)
(* ===================================================================== *)

(** C7 as worded fails in a state other than Connected: the query makes
    no probe and reports no latency. *)
Lemma health_makes_no_probe_when_disconnected :
  pings (snd (health (with_config ∅) disconnected)) = pings disconnected
  /\ effects (events (snd (health (with_config ∅) disconnected))) = []
  /\ fst (health (with_config ∅) disconnected)
     = Returned
         {| statusCode := 503;
            json := HealthBody "unhealthy"
                      {| state := "disconnected"; healthy := false;
                         error := Some "Database is disconnected";
                         responseTime := None |} |}.
Proof. repeat split. Qed.

(** C7, amended.  [GET /health] always answers and never ends the
    process.  When the connection state read at the query is Connected it
    pings the database once, then and there, and reports the time between
    the clock reading before the state was read and the one after the
    ping; the answer is 200 when that ping succeeds and 503, with
    [healthy] false, when it fails.  In any other state it makes no probe,
    reports no latency and answers 503. *)
Theorem health_probes_when_connected :
  forall (envConfig : EnvironmentConfig) (w : Server),
  exists resp w' status database,
    health envConfig w = (Returned resp, w')
    /\ json resp = HealthBody status database
    /\ exit_code w' = exit_code w
    /\ (statusCode resp = 200%Z
        <-> readiness w = true /\ ping_result w (pings w) = None)
    /\ (statusCode resp = 200%Z \/ statusCode resp = 503%Z)
    /\ (statusCode resp = 200%Z <-> healthy database = true)
    /\ (readiness w = true ->
        pings w' = S (pings w)
        /\ responseTime database
           = Some (clock w (S (clock_reads w)) - clock w (clock_reads w))%Z
        /\ (ping_result w (pings w) <> None ->
            statusCode resp = 503%Z /\ healthy database = false
            /\ error database = ping_result w (pings w)))
    /\ (readiness w = false ->
        pings w' = pings w
        /\ responseTime database = None
        /\ statusCode resp = 503%Z
        /\ healthy database = false).
Proof.
  intros envConfig w.
  unfold health, check_database, try_catch, bind, gets, admin_ping, Date_now,
    log, modify, ret, readiness.
  simpl.
  destruct (readyState w =? 1)%Z eqn:Hstate; simpl.
  - destruct (ping_result w (pings w)) as [message|] eqn:Hping; simpl.
    + destruct (level_enabled envConfig); simpl;
        (eexists _, _, _, _; split; [reflexivity|]; simpl; rewrite ?Hping;
         repeat split; try tauto; try discriminate; try congruence;
         intuition discriminate).
    + eexists _, _, _, _. split; [reflexivity|]. simpl. rewrite ?Hping.
      repeat split; try tauto; try discriminate; try congruence.
  - destruct (level_enabled envConfig); simpl;
      (eexists _, _, _, _; split; [reflexivity|]; simpl;
       repeat split; try tauto; try discriminate; try congruence;
       intuition discriminate).
Qed.

Lemma health_probes_when_connected_witness :
  exists resp w' status database,
    health (with_config ∅) stale_connection = (Returned resp, w')
    /\ json resp = HealthBody status database
    /\ pings w' = 1
    /\ responseTime database = Some 7%Z
    /\ statusCode resp = 503%Z
    /\ healthy database = false.
Proof.
  destruct (health_probes_when_connected (with_config ∅) stale_connection)
    as (resp & w' & status & database & Hrun & Hjson & _ & _ & _ & _ & Hconn & _).
  exists resp, w', status, database.
  destruct (Hconn eq_refl) as (Hpings & Htime & Hfail).
  destruct Hfail as (Hcode & Hhealthy & _); [discriminate|].
  repeat split; assumption.
Defined.

(* ===================================================================== *)
(** ** connectWithRetry *)
(* ===================================================================== *)

Open Scope list_scope.

Lemma effects_app (es1 es2 : list event) :
  effects (es1 ++ es2) = effects es1 ++ effects es2.
Proof. apply List.filter_app. Qed.

Lemma failed_schedule_step (uri : value) (options : connect_options) (delay : Z)
    (n : nat) :
  n <> 0 ->
  failed_schedule uri options delay (S n)
  = EvConnect uri options :: EvDelay delay :: failed_schedule uri options delay n.
Proof. destruct n; [congruence | reflexivity]. Qed.

(** When every attempt fails, the loop entered with [remaining] turns left
    makes [remaining] attempts with a delay between consecutive ones, and
    throws the error of the last attempt. *)
Lemma retry_loop_all_fail (envConfig : EnvironmentConfig) (maxRetries : nat)
    (retryDelay : Z) (remaining : nat) :
  forall (attempt : nat) (w : Server),
    (forall n, connect_result w n <> None) ->
    attempt + remaining = S maxRetries ->
    remaining <> 0 ->
    exists message w',
      retry_loop envConfig maxRetries retryDelay remaining attempt w
      = (Thrown message, w')
      /\ connect_result w' = connect_result w
      /\ connects w' = connects w + remaining
      /\ effects (events w')
         = effects (events w)
           ++ failed_schedule (mongoUri envConfig) (connection_options envConfig)
                retryDelay remaining
      /\ exit_code w' = exit_code w.
Proof.
  induction remaining as [|remaining IH]; intros attempt w Hfail Hsum Hpos;
    [congruence|].
  destruct (connect_result w (connects w)) as [message|] eqn:Hconn;
    [|now apply Hfail in Hconn].
  destruct (Nat.eqb attempt maxRetries) eqn:Hlast.
  - (* the last attempt *)
    assert (remaining = 0) as -> by (apply Nat.eqb_eq in Hlast; lia).
    exists message.
    unfold retry_loop, try_catch, bind, log, mongoose_connect, throw, modify, ret.
    destruct (level_enabled envConfig); simpl; rewrite Hconn, Hlast; simpl;
      (eexists; split; [reflexivity|]; simpl;
       repeat split; [lia | rewrite ?effects_app; simpl; now rewrite ?app_nil_r]).
  - (* a failed attempt followed by a delay and a further attempt *)
    assert (remaining <> 0) as Hmore by (apply Nat.eqb_neq in Hlast; lia).
    rewrite failed_schedule_step by assumption.
    cbn [retry_loop].
    unfold try_catch, bind at 1, log, mongoose_connect, sleep, throw, modify, ret.
    unfold bind at 1 2 3 4 5 6.
    destruct (level_enabled envConfig); simpl; rewrite Hconn, Hlast; simpl;
      match goal with
      | |- context [retry_loop _ _ _ _ _ ?w1] =>
          destruct (IH (S attempt) w1) as (msg & w' & Hrun & Hres & Hcount & Heff & Hexit);
            [exact Hfail | lia | assumption |]
      end;
      exists msg, w'; (split; [exact Hrun|]);
      simpl in Hres, Hcount, Heff, Hexit;
      (repeat split;
       [assumption | lia
        | rewrite Heff, ?effects_app; simpl; rewrite ?app_nil_r, <- ?app_assoc;
          reflexivity
        | assumption]).
Qed.

(** The error the loop throws is the one of its last attempt. *)
Lemma retry_loop_last_error (envConfig : EnvironmentConfig) (maxRetries : nat)
    (retryDelay : Z) (remaining : nat) :
  forall (attempt : nat) (w : Server),
    (forall n, connect_result w n <> None) ->
    attempt + remaining = S maxRetries ->
    remaining <> 0 ->
    exists message w',
      retry_loop envConfig maxRetries retryDelay remaining attempt w
      = (Thrown message, w')
      /\ connect_result w (connects w + (remaining - 1)) = Some message.
Proof.
  induction remaining as [|remaining IH]; intros attempt w Hfail Hsum Hpos;
    [congruence|].
  destruct (connect_result w (connects w)) as [message|] eqn:Hconn;
    [|now apply Hfail in Hconn].
  destruct (Nat.eqb attempt maxRetries) eqn:Hlast.
  - assert (remaining = 0) as -> by (apply Nat.eqb_eq in Hlast; lia).
    exists message.
    unfold retry_loop, try_catch, bind, log, mongoose_connect, throw, modify, ret.
    destruct (level_enabled envConfig); simpl; rewrite Hconn, Hlast; simpl;
      (eexists; split; [reflexivity|]; rewrite <- Hconn; f_equal; lia).
  - assert (remaining <> 0) as Hmore by (apply Nat.eqb_neq in Hlast; lia).
    cbn [retry_loop].
    unfold try_catch, bind at 1, log, mongoose_connect, sleep, throw, modify, ret.
    unfold bind at 1 2 3 4 5 6.
    destruct (level_enabled envConfig); simpl; rewrite Hconn, Hlast; simpl;
      match goal with
      | |- context [retry_loop _ _ _ _ _ ?w1] =>
          destruct (IH (S attempt) w1) as (msg & w' & Hrun & Hmsg);
            [exact Hfail | lia | assumption |]
      end;
      exists msg, w'; (split; [exact Hrun|]);
      simpl in Hmsg; rewrite <- Hmsg; f_equal; lia.
Qed.

(** C8 as worded fails: under a configuration that asks for three
    attempts one second apart, a database that refuses every connection
    is tried ten times, five seconds apart. *)
Lemma three_attempts_are_not_configurable :
  config three_attempts !! "DB_MAX_RETRIES" = Some "3"
  /\ connects (snd (initialize_connection three_attempts unreachable_database)) = 10
  /\ connects (snd (initialize_connection three_attempts unreachable_database)) <> 3
  /\ In (EvDelay 5000)
        (events (snd (initialize_connection three_attempts unreachable_database)))
  /\ ~ In (EvDelay 1000)
         (events (snd (initialize_connection three_attempts unreachable_database))).
Proof.
  assert (connects (snd (initialize_connection three_attempts unreachable_database))
          = 10) as Hten by (vm_compute; reflexivity).
  split; [vm_compute; reflexivity|].
  split; [exact Hten|].
  split; [rewrite Hten; discriminate|].
  split.
  - vm_compute. tauto.
  - vm_compute. intros H.
    repeat (destruct H as [H|H]; [discriminate H|]). exact H.
Qed.

(** C8, amended.  When every connection attempt fails, [connectWithRetry]
    makes exactly 10 attempts, waits 5000 ms between consecutive attempts
    (9 waits), and rejects with the error of the tenth attempt; the
    handler of the rejection then logs that error (when the log level
    lets it) and calls [process.exit(1)], and nothing else follows.  The
    numbers 10 and 5000 are constants of the function: no configuration
    changes them. *)
Theorem connection_gives_up_after_ten_attempts :
  forall (envConfig : EnvironmentConfig) (w : Server),
    (forall n, connect_result w n <> None) ->
    exit_code w = None ->
    exists (message : string) (w1 w' : Server),
      connect_result w (connects w + 9) = Some message
      /\ connectWithRetry envConfig w = (Thrown message, w1)
      /\ initialize_connection envConfig w = (Returned tt, w')
      /\ events w'
         = events w1
           ++ (if level_enabled envConfig
               then [EvLog log_error (MsgFailedToConnect message)] else [])
           ++ [EvExit 1]
      /\ connects w' = connects w + 10
      /\ effects (events w')
         = effects (events w)
           ++ failed_schedule (mongoUri envConfig) (connection_options envConfig)
                5000 10
           ++ [EvExit 1]
      /\ length (List.filter (fun e => match e with EvDelay _ => true | _ => false end)
                   (failed_schedule (mongoUri envConfig)
                      (connection_options envConfig) 5000 10)) = 9
      /\ exit_code w' = Some 1%Z.
Proof.
  intros envConfig w Hfail Hrunning.
  destruct (retry_loop_all_fail envConfig 10 5000 10 1 w Hfail)
    as (message & w1 & Hrun & _ & Hcount & Heff & Hexit); [lia | lia |].
  destruct (retry_loop_last_error envConfig 10 5000 10 1 w Hfail)
    as (message' & w1' & Hrun' & Hlast); [lia | lia |].
  rewrite Hrun in Hrun'. injection Hrun' as <- <-.
  exists message, w1.
  unfold initialize_connection, connectWithRetry, try_catch. cbv zeta.
  rewrite Hrun. unfold bind, log, process_exit, modify.
  destruct (level_enabled envConfig); simpl;
    (eexists; split; [exact Hlast|]; split; [reflexivity|];
     split; [reflexivity|]; simpl;
     rewrite Hexit, Hrunning, ?effects_app, Heff; simpl;
     rewrite ?app_nil_r, <- ?app_assoc; repeat split; assumption).
Qed.

Lemma connection_gives_up_after_ten_attempts_witness :
  exists w',
    initialize_connection three_attempts refused_then_timed_out = (Returned tt, w')
    /\ fst (connectWithRetry three_attempts refused_then_timed_out)
       = Thrown "server selection timed out"
    /\ connects w' = 10
    /\ exit_code w' = Some 1%Z.
Proof.
  destruct (connection_gives_up_after_ten_attempts three_attempts
              refused_then_timed_out)
    as (message & w1 & w' & Hlast & Hthrown & Hrun & _ & Hcount & _ & _ & Hexit).
  - intros n. simpl. discriminate.
  - reflexivity.
  - exists w'. simpl in Hlast. injection Hlast as <-.
    rewrite Hthrown. repeat split; assumption.
Defined.

(* ===================================================================== *)
(** ** More on the file layers *)
(* ===================================================================== *)

Open Scope string_scope.



(** X2.  File layers that do not exist are skipped without a trace: when
    none of the named files exists, the configuration object and the
    console are as before. *)
Theorem missing_files_are_skipped :
  forall (names : list string) (this : EnvironmentConfig) (p : Process),
    (forall file, In file names -> files p !! file = None) ->
    load_files (E:=env_error) names this p = (Returned this, p).
Proof.
  induction names as [|file rest IH]; intros this p Hnone; [reflexivity|].
  simpl. unfold bind at 1, existsSync, gets.
  rewrite (Hnone file) by (simpl; tauto).
  rewrite bool_decide_eq_false_2 by (intros [x Hx]; discriminate).
  apply IH. intros f Hf. apply Hnone. simpl. tauto.
Qed.

Lemma missing_files_are_skipped_witness :
  load_files (E:=env_error) [".env"; ".env.test"; ".env.local"]
    (initial_config ∅) (start ∅ ∅)
  = (Returned (initial_config ∅), start ∅ ∅).
Proof.
  apply (missing_files_are_skipped [".env"; ".env.test"; ".env.local"]
           (initial_config ∅) (start ∅ ∅)).
  intros file _. apply lookup_empty.
Defined.



(** *** Loading again changes nothing *)

Lemma keeps_entries_is_Some (this this' : EnvironmentConfig) (key : string) :
  keeps_entries this this' ->
  is_Some (config this !! key) -> is_Some (config this' !! key).
Proof. intros (_ & _ & _ & Hk) [v Hv]. exists v. now apply Hk. Qed.

Lemma load_line_assigns {E} (filePath line : string) (index : nat)
    (this this' : EnvironmentConfig) (p p' : Process) (k v : string) :
  load_line (E:=E) filePath this line index p = (Returned this', p') ->
  parse_line line = Assignment k v ->
  is_Some (config this' !! k).
Proof.
  unfold load_line. intros Hrun Hparse. rewrite Hparse in Hrun.
  destruct (config this !! k) eqn:Hk; injection Hrun as <- <-.
  - rewrite Hk. eauto.
  - simpl. rewrite lookup_insert_eq. eauto.
Qed.

Lemma load_lines_assign {E} (filePath : string) (lines : list string) :
  forall (index : nat) (this this' : EnvironmentConfig) (p p' : Process)
         (line k v : string),
    load_lines (E:=E) filePath lines index this p = (Returned this', p') ->
    In line lines ->
    parse_line line = Assignment k v ->
    is_Some (config this' !! k).
Proof.
  induction lines as [|l rest IH]; intros index this this' p p' line k v Hrun Hin Hparse;
    [contradiction|].
  simpl in Hrun. unfold bind at 1 in Hrun.
  destruct (load_line_loads (E:=E) filePath l index this p)
    as (this1 & p1 & Hrun1 & _ & _).
  rewrite Hrun1 in Hrun.
  destruct Hin as [->|Hin].
  - destruct (load_lines_loads (E:=E) filePath rest (S index) this1 p1)
      as (this2 & p2 & Hrun2 & Hk2 & _).
    rewrite Hrun2 in Hrun. injection Hrun as <- <-.
    eapply keeps_entries_is_Some; [exact Hk2|].
    eapply load_line_assigns; eassumption.
  - eapply IH; eassumption.
Qed.

Lemma load_line_fixed {E} (filePath line : string) (index : nat)
    (this : EnvironmentConfig) (p : Process) :
  (forall k v, parse_line line = Assignment k v -> is_Some (config this !! k)) ->
  exists p', load_line (E:=E) filePath this line index p = (Returned this, p')
             /\ loader_step p p'.
Proof.
  intros Hcov. unfold load_line.
  destruct (parse_line line) as [|k v|bad] eqn:Hparse.
  - exists p. split; [reflexivity | apply loader_step_refl].
  - destruct (Hcov k v eq_refl) as [x ->].
    exists p. split; [reflexivity | apply loader_step_refl].
  - eexists. split; [reflexivity|]. now apply loader_step_print.
Qed.

Lemma load_lines_fixed {E} (filePath : string) (lines : list string) :
  forall (index : nat) (this : EnvironmentConfig) (p : Process),
    (forall line k v, In line lines -> parse_line line = Assignment k v ->
                      is_Some (config this !! k)) ->
    exists p', load_lines (E:=E) filePath lines index this p = (Returned this, p')
               /\ loader_step p p'.
Proof.
  induction lines as [|l rest IH]; intros index this p Hcov.
  - exists p. split; [reflexivity | apply loader_step_refl].
  - destruct (load_line_fixed (E:=E) filePath l index this p) as (p1 & Hrun1 & Hs1).
    { intros k v. apply Hcov. simpl. tauto. }
    destruct (IH (S index) this p1) as (p2 & Hrun2 & Hs2).
    { intros line k v Hin. apply Hcov. simpl. tauto. }
    exists p2. split; [|eapply loader_step_trans; eassumption].
    simpl. unfold bind at 1. now rewrite Hrun1.
Qed.

Lemma covers_step (this this' : EnvironmentConfig) (p p' : Process)
    (names : list string) :
  keeps_entries this this' -> files p' = files p ->
  covers this p names -> covers this' p' names.
Proof.
  intros Hk Hf Hcov file content line k v Hin Hfile Hline Hparse.
  rewrite Hf in Hfile. eapply keeps_entries_is_Some; [exact Hk|].
  eapply Hcov; eassumption.
Qed.

Lemma load_files_cover {E} (names : list string) :
  forall (this this' : EnvironmentConfig) (p p' : Process),
    load_files (E:=E) names this p = (Returned this', p') ->
    covers this' p' names.
Proof.
  induction names as [|file rest IH]; intros this this' p p' Hrun.
  - intros f content line k v [].
  - simpl in Hrun. unfold bind at 1, existsSync, gets in Hrun.
    destruct (bool_decide (is_Some (files p !! file))) eqn:Hex.
    + unfold bind at 1 in Hrun.
      destruct (loadEnvFile_loads (E:=E) file this p) as (this1 & p1 & Hrun1 & Hk1 & Hs1).
      rewrite Hrun1 in Hrun. unfold bind at 1, console_print, modify in Hrun.
      destruct (load_files_loads (E:=E) rest this1 (print console_log (MsgLoaded file) p1))
        as (this2 & p2 & Hrun2 & Hk2 & (Hf2 & _)).
      rewrite Hrun2 in Hrun. injection Hrun as <- <-.
      intros f content line k v [<-|Hin] Hfile Hline Hparse.
      * rewrite Hf2 in Hfile. simpl in Hfile.
        destruct Hs1 as (Hf1 & _). rewrite Hf1 in Hfile.
        eapply keeps_entries_is_Some; [exact Hk2|].
        unfold loadEnvFile, try_catch, bind at 1, readFileSync in Hrun1.
        rewrite Hfile in Hrun1.
        destruct (load_lines_loads (E:=string) file
                    (JsString.split "010"%char content) 0 this p)
          as (t & q & Hl & _).
        rewrite Hl in Hrun1. injection Hrun1 as <- <-.
        eapply load_lines_assign; eassumption.
      * eapply (IH this1 this2 _ p2 Hrun2); eassumption.
    + destruct (load_files_loads (E:=E) rest this p) as (t & q & Hr & _ & (Hf & _)).
      rewrite Hr in Hrun. injection Hrun as <- <-.
      intros f content line k v [<-|Hin] Hfile Hline Hparse.
      * rewrite Hf in Hfile. apply bool_decide_eq_false_1 in Hex.
        exfalso. apply Hex. eauto.
      * eapply (IH this t p q Hr); eassumption.
Qed.

Lemma loadEnvFile_fixed {E} (file : string) (this : EnvironmentConfig) (p : Process) :
  covers this p [file] ->
  exists p', loadEnvFile (E:=E) file this p = (Returned this, p') /\ loader_step p p'.
Proof.
  intros Hcov. unfold loadEnvFile, try_catch, bind at 1, readFileSync.
  destruct (files p !! file) as [[content|message]|] eqn:Hfile.
  - destruct (load_lines_fixed (E:=string) file (JsString.split "010"%char content)
                0 this p) as (p1 & Hrun1 & Hs1).
    { intros line k v Hin Hparse.
      eapply (Hcov file content line k v); [simpl; tauto | | |]; eassumption. }
    rewrite Hrun1. eauto.
  - eexists. split; [reflexivity|]. now apply loader_step_print.
  - eexists. split; [reflexivity|]. now apply loader_step_print.
Qed.

Lemma load_files_fixed {E} (names : list string) :
  forall (this : EnvironmentConfig) (p : Process),
    covers this p names ->
    exists p', load_files (E:=E) names this p = (Returned this, p')
               /\ loader_step p p'.
Proof.
  induction names as [|file rest IH]; intros this p Hcov.
  - exists p. split; [reflexivity | apply loader_step_refl].
  - assert (forall q, files q = files p -> covers this q rest) as Hrest.
    { intros q Hq f content line k v Hin Hfile.
      rewrite Hq in Hfile. apply (Hcov f content line k v); [simpl; tauto | exact Hfile]. }
    simpl. unfold bind at 1, existsSync, gets.
    destruct (bool_decide (is_Some (files p !! file))).
    + destruct (loadEnvFile_fixed (E:=E) file this p) as (p1 & Hrun1 & Hs1).
      { intros f content line k v [<-|[]]. apply Hcov. simpl. tauto. }
      unfold bind at 1. rewrite Hrun1.
      unfold bind at 1, console_print, modify.
      destruct (IH this (print console_log (MsgLoaded file) p1)) as (p2 & Hrun2 & Hs2).
      { apply Hrest. simpl. apply Hs1. }
      exists p2. split; [exact Hrun2|].
      eapply loader_step_trans; [exact Hs1|].
      eapply loader_step_trans; [|exact Hs2].
      now apply loader_step_print.
    + apply IH. now apply Hrest.
Qed.

(** X4.  Resolving the configuration is idempotent: [loadEnvironmentFiles]
    always returns, and run again on the object it returned, with the same
    files and process environment, it returns that object unchanged. *)
Theorem loadEnvironmentFiles_idempotent :
  forall (this : EnvironmentConfig) (p : Process),
  exists this1 p1 p2,
    loadEnvironmentFiles (E:=env_error) this p = (Returned this1, p1)
    /\ loadEnvironmentFiles (E:=env_error) this1 p1 = (Returned this1, p2)
    /\ files p2 = files p
    /\ process_env p2 = process_env p.
Proof.
  intros this p.
  destruct (load_files_loads (E:=env_error) (envFiles this) this p)
    as (t & p1 & Hrun & Hkeep & Hstep).
  pose proof (load_files_cover (E:=env_error) _ _ _ _ _ Hrun) as Hcov.
  destruct Hstep as (Hf1 & He1 & _).
  set (this1 := set_config (process_env p ∪ config t) t).
  assert (envFiles this1 = envFiles this) as Hnames.
  { unfold envFiles, this1. simpl. destruct Hkeep as (-> & _). reflexivity. }
  assert (covers this1 p1 (envFiles this1)) as Hcov1.
  { rewrite Hnames. intros f content line k v Hin Hfile Hline Hparse.
    destruct (Hcov f content line k v Hin Hfile Hline Hparse) as [x Hx].
    unfold this1. simpl.
    destruct (process_env p !! k) as [y|] eqn:Hy.
    - exists y. now apply lookup_union_Some_l.
    - exists x. rewrite lookup_union_r; assumption. }
  destruct (load_files_fixed (E:=env_error) (envFiles this1) this1 p1 Hcov1)
    as (p2 & Hrun2 & (Hf2 & He2 & _)).
  exists this1, p1, p2.
  split; [|split; [|split; congruence]].
  - unfold loadEnvironmentFiles, bind at 1. rewrite Hrun.
    unfold bind, gets, ret, spread. rewrite He1. reflexivity.
  - unfold loadEnvironmentFiles, bind at 1. rewrite Hrun2.
    unfold bind, gets, ret, spread. rewrite He2, He1.
    unfold this1, set_config. simpl.
    rewrite (map_union_assoc (process_env p)).
    now rewrite (idemp (∪) (process_env p)).
Qed.

(** *** The resolved value of a key *)

Lemma first_assignment_app (l1 l2 : list string) (key : string) :
  first_assignment (l1 ++ l2)%list key
  = or_option (first_assignment l1 key) (first_assignment l2 key).
Proof.
  induction l1 as [|line rest IH]; simpl; [reflexivity|].
  destruct (parse_line line) as [|k v|bad]; try exact IH.
  destruct (String.eqb k key); [reflexivity | exact IH].
Qed.

Lemma or_option_assoc (a b c : option string) :
  or_option (or_option a b) c = or_option a (or_option b c).
Proof. destruct a; reflexivity. Qed.

Lemma load_line_lookup {E} (filePath line : string) (index : nat)
    (this this' : EnvironmentConfig) (p p' : Process) (key : string) :
  load_line (E:=E) filePath this line index p = (Returned this', p') ->
  config this' !! key
  = or_option (config this !! key) (first_assignment [line] key).
Proof.
  unfold load_line. simpl. intros Hrun.
  destruct (parse_line line) as [|k v|bad].
  - injection Hrun as <- <-. destruct (config this !! key); reflexivity.
  - destruct (config this !! k) eqn:Hk; injection Hrun as <- <-.
    + destruct (String.eqb k key) eqn:Heq.
      * apply String.eqb_eq in Heq. subst k. now rewrite Hk.
      * destruct (config this !! key); reflexivity.
    + simpl. destruct (String.eqb k key) eqn:Heq.
      * apply String.eqb_eq in Heq. subst k. now rewrite lookup_insert_eq, Hk.
      * apply String.eqb_neq in Heq. rewrite lookup_insert_ne by assumption.
        destruct (config this !! key); reflexivity.
  - unfold bind, console_print, modify, ret in Hrun. injection Hrun as <- <-.
    destruct (config this !! key); reflexivity.
Qed.

Lemma load_lines_lookup {E} (filePath : string) (lines : list string) :
  forall (index : nat) (this this' : EnvironmentConfig) (p p' : Process) (key : string),
    load_lines (E:=E) filePath lines index this p = (Returned this', p') ->
    config this' !! key
    = or_option (config this !! key) (first_assignment lines key).
Proof.
  induction lines as [|l rest IH]; intros index this this' p p' key Hrun.
  - injection Hrun as <- <-. destruct (config this !! key); reflexivity.
  - simpl in Hrun. unfold bind at 1 in Hrun.
    destruct (load_line_loads (E:=E) filePath l index this p)
      as (this1 & p1 & Hrun1 & _ & _).
    rewrite Hrun1 in Hrun.
    rewrite (IH _ _ _ _ _ key Hrun), (load_line_lookup _ _ _ _ _ _ _ key Hrun1).
    rewrite or_option_assoc. f_equal.
    change (l :: rest) with ([l] ++ rest)%list. now rewrite first_assignment_app.
Qed.

Lemma loadEnvFile_lookup {E} (file : string) (this this' : EnvironmentConfig)
    (p p' : Process) (key : string) :
  loadEnvFile (E:=E) file this p = (Returned this', p') ->
  config this' !! key
  = or_option (config this !! key) (first_assignment (file_lines p file) key).
Proof.
  unfold loadEnvFile, try_catch, bind at 1, readFileSync, file_lines.
  destruct (files p !! file) as [[content|message]|]; intros Hrun.
  - destruct (load_lines_loads (E:=string) file (JsString.split "010"%char content)
                0 this p) as (t & q & Hl & _).
    rewrite Hl in Hrun. injection Hrun as <- <-.
    eapply load_lines_lookup. exact Hl.
  - injection Hrun as <- _. destruct (config this !! key); reflexivity.
  - injection Hrun as <- _. destruct (config this !! key); reflexivity.
Qed.

Lemma file_lines_step (p p' : Process) (file : string) :
  files p' = files p -> file_lines p' file = file_lines p file.
Proof. unfold file_lines. now intros ->. Qed.

Lemma load_files_lookup {E} (names : list string) :
  forall (this this' : EnvironmentConfig) (p p' : Process) (key : string),
    load_files (E:=E) names this p = (Returned this', p') ->
    config this' !! key
    = or_option (config this !! key)
        (first_assignment (flat_map (file_lines p) names) key).
Proof.
  induction names as [|file rest IH]; intros this this' p p' key Hrun.
  - injection Hrun as <- <-. destruct (config this !! key); reflexivity.
  - simpl in Hrun. unfold bind at 1, existsSync, gets in Hrun.
    simpl. rewrite first_assignment_app.
    destruct (bool_decide (is_Some (files p !! file))) eqn:Hex.
    + unfold bind at 1 in Hrun.
      destruct (loadEnvFile_loads (E:=E) file this p)
        as (this1 & p1 & Hrun1 & _ & (Hf1 & _)).
      rewrite Hrun1 in Hrun. unfold bind at 1, console_print, modify in Hrun.
      rewrite (IH _ _ _ _ key Hrun), (loadEnvFile_lookup _ _ _ _ _ key Hrun1).
      rewrite or_option_assoc. do 3 f_equal.
      apply flat_map_ext. intros f. apply file_lines_step. simpl. exact Hf1.
    + apply bool_decide_eq_false_1 in Hex.
      assert (file_lines p file = []) as ->.
      { unfold file_lines.
        destruct (files p !! file) as [[content|message]|] eqn:Hfile;
          [exfalso; apply Hex; eauto | reflexivity | reflexivity]. }
      simpl. exact (IH _ _ _ _ key Hrun).
Qed.

(** X5.  The value a key resolves to: its process-environment value when
    it has one; else the value it had in the object before loading; else
    the value of the first line assigning it, reading the lines of .env,
    then of .env.<environment>, then of .env.local (a missing or unreadable
    file contributes no line); else none.  This is so when the object
    does not hold a [hasOwnProperty] of its own before loading and no line
    of the files assigns [hasOwnProperty] or [__proto__]. *)
Theorem resolved_value_of_a_key :
  forall (this : EnvironmentConfig) (p : Process) (key : string),
    config this !! "hasOwnProperty" = None ->
    plain_lines (flat_map (file_lines p)
                   [".env"; ".env." ++ environment this; ".env.local"]) ->
    exists this' p',
      loadEnvironmentFiles (E:=env_error) this p = (Returned this', p')
      /\ config this' !! key
         = or_option (process_env p !! key)
             (or_option (config this !! key)
                (first_assignment
                   (flat_map (file_lines p)
                      [".env"; ".env." ++ environment this; ".env.local"])
                   key)).
Proof.
  intros this p key _ _.
  destruct (load_files_loads (E:=env_error) (envFiles this) this p)
    as (t & p1 & Hrun & _ & (_ & He & _)).
  eexists _, p1. split.
  - unfold loadEnvironmentFiles, bind at 1. rewrite Hrun.
    unfold bind, gets, ret. reflexivity.
  - unfold set_config, spread. cbn [config]. rewrite He.
    change [".env"; ".env." ++ environment this; ".env.local"] with (envFiles this).
    rewrite <- (load_files_lookup (E:=env_error) (envFiles this) this t p p1 key Hrun).
    destruct (process_env p !! key) as [v|] eqn:Hv.
    + now apply lookup_union_Some_l.
    + now rewrite lookup_union_r.
Qed.

Lemma resolved_value_of_a_key_witness :
  exists this' p',
    loadEnvironmentFiles (E:=env_error) (initial_config ∅) (start three_layers ∅)
    = (Returned this', p')
    /\ config this' !! "LOG_LEVEL" = Some "debug".
Proof.
  destruct (resolved_value_of_a_key (initial_config ∅) (start three_layers ∅)
              "LOG_LEVEL")
    as (this' & p' & Hrun & Hvalue).
  - reflexivity.
  - vm_compute. reflexivity.
  - exists this', p'. split; [exact Hrun|]. rewrite Hvalue.
    vm_compute. reflexivity.
Defined.

Example resolved_three_layers :
  exists envConfig p',
    module_init (start three_layers ∅) = (Returned envConfig, p')
    /\ config envConfig !! "PORT" = Some "3000"
    /\ config envConfig !! "LOG_LEVEL" = Some "debug"
    /\ config envConfig !! "HOST" = Some "127.0.0.1".
Proof. eexists _, _. repeat split; vm_compute; reflexivity. Qed.

(* ===================================================================== *)
(** ** More on validation *)
(* ===================================================================== *)

(** X6.  When a required key has no value or the empty string as value,
    [validateConfiguration] prints the missing keys with [console.error]
    and throws; the keys it names are exactly the required keys that are
    absent or empty, whatever the environment label and the secrets.
    The required keys are taken not to be names every object inherits: a
    required [toString] without a value is not reported. *)
Theorem validation_reports_missing_keys :
  forall (this : EnvironmentConfig) (p : Process) (key : string),
    ordinary (requiredVars this) ->
    In key (requiredVars this) ->
    config this !! key = None \/ config this !! key = Some "" ->
    exists keys,
      validateConfiguration this p
      = (Thrown (MissingRequiredError keys), print console_error (MsgMissing keys) p)
      /\ In key keys
      /\ forall k, In k keys
                   <-> In k (requiredVars this)
                       /\ (config this !! k = None \/ config this !! k = Some "").
Proof.
  intros this p key _ Hreq Hmiss.
  assert (In key (missing_keys this)) as Hin by (apply missing_keys_spec; tauto).
  exists (missing_keys this). split; [|split; [exact Hin|]].
  - apply validateConfiguration_missing. intros Hnil. rewrite Hnil in Hin. exact Hin.
  - intros k. apply missing_keys_spec.
Qed.

Lemma validation_reports_missing_keys_witness :
  exists keys,
    validateConfiguration (with_config (<["PORT" := ""]> ∅)) (start ∅ ∅)
    = (Thrown (MissingRequiredError keys),
       print console_error (MsgMissing keys) (start ∅ ∅))
    /\ In "PORT" keys
    /\ forall k, In k keys
                 <-> In k (requiredVars (with_config (<["PORT" := ""]> ∅)))
                     /\ (config (with_config (<["PORT" := ""]> ∅)) !! k = None
                         \/ config (with_config (<["PORT" := ""]> ∅)) !! k = Some "").
Proof.
  apply (validation_reports_missing_keys (with_config (<["PORT" := ""]> ∅))
           (start ∅ ∅) "PORT").
  - reflexivity.
  - simpl. tauto.
  - right. reflexivity.
Defined.

Lemma insecure_keys_spec (this : EnvironmentConfig) (key : string) :
  In key (insecure_keys this)
  <-> environment this = "production"
      /\ In key (secretVars this)
      /\ exists v, config this !! key = Some v /\ v <> ""
                   /\ isInsecureSecret key v = true.
Proof.
  unfold insecure_keys.
  destruct (String.eqb (environment this) "production") eqn:Henv.
  - apply String.eqb_eq in Henv. rewrite filter_In. split.
    + intros (Hin & Hv). split; [assumption|]. split; [assumption|].
      destruct (config this !! key) as [v|]; [|discriminate].
      exists v. destruct v; [discriminate|]. simpl in Hv. repeat split; congruence.
    + intros (_ & Hin & v & Hv & Hne & Hbad). split; [assumption|].
      rewrite Hv, Hbad. destruct v; [congruence | reflexivity].
  - apply String.eqb_neq in Henv. simpl. tauto.
Qed.

(** X7.  In production, with no required key missing, validation passes
    exactly when every secret key that has a non-empty value has a value
    [isInsecureSecret] accepts; a secret that is absent or empty is not
    looked at.  Otherwise it throws, naming the insecure keys.  The
    secret keys are taken not to be names every object inherits: for a
    secret [constructor] without a value the inherited function is
    examined, and rejected. *)
Theorem production_validation_outcome :
  forall (this : EnvironmentConfig) (p : Process),
    environment this = "production" ->
    missing_keys this = [] ->
    ordinary (secretVars this) ->
    ((forall key v, In key (secretVars this) -> config this !! key = Some v ->
                    v <> "" -> isInsecureSecret key v = false)
     -> validateConfiguration this p
        = (Returned tt, print console_log (MsgValidated "production") p))
    /\ (forall key v, In key (secretVars this) -> config this !! key = Some v ->
                      v <> "" -> isInsecureSecret key v = true ->
        exists keys,
          validateConfiguration this p
          = (Thrown (InsecureSecretsError keys),
             print console_error (MsgInsecure keys) p)
          /\ In key keys).
Proof.
  intros this p Henv Hmissing _. unfold validateConfiguration. rewrite Hmissing.
  split.
  - intros Hsecure.
    assert (insecure_keys this = []) as ->.
    { destruct (insecure_keys this) as [|k ks] eqn:Hk; [reflexivity|].
      assert (In k (insecure_keys this)) as Hin by (rewrite Hk; simpl; tauto).
      apply insecure_keys_spec in Hin.
      destruct Hin as (_ & Hin & v & Hv & Hne & Hbad).
      rewrite (Hsecure k v Hin Hv Hne) in Hbad. discriminate. }
    simpl. now rewrite Henv.
  - intros key v Hin Hv Hne Hbad.
    assert (In key (insecure_keys this)) as Hk.
    { apply insecure_keys_spec. split; [assumption|]. split; [assumption|]. eauto. }
    exists (insecure_keys this). split; [|exact Hk].
    destruct (insecure_keys this); [contradiction | reflexivity].
Qed.

Lemma production_validation_outcome_witness :
  validateConfiguration production_strong (start ∅ ∅)
  = (Returned tt, print console_log (MsgValidated "production") (start ∅ ∅))
  /\ exists keys,
       validateConfiguration production_placeholder (start ∅ ∅)
       = (Thrown (InsecureSecretsError keys),
          print console_error (MsgInsecure keys) (start ∅ ∅))
       /\ In "JWT_SECRET" keys.
Proof.
  split.
  - apply (proj1 (production_validation_outcome production_strong (start ∅ ∅)
                    eq_refl eq_refl eq_refl)).
    intros key v Hin Hv Hne. simpl in Hin.
    destruct Hin as [<-|[<-|[<-|[]]]]; vm_compute in Hv;
      try discriminate Hv; injection Hv as <-;
      [reflexivity | congruence].
  - apply (proj2 (production_validation_outcome production_placeholder (start ∅ ∅)
                    eq_refl eq_refl eq_refl)
             "JWT_SECRET" "change-this-to-a-long-random-value").
    + simpl. tauto.
    + reflexivity.
    + discriminate.
    + reflexivity.
Defined.

(* ===================================================================== *)
(** ** Registering required and secret keys *)
(* ===================================================================== *)

Lemma set_add_In (v x : string) (s : list string) :
  In x (set_add v s) <-> x = v \/ In x s.
Proof.
  unfold set_add. destruct (bool_decide (v ∈ s)) eqn:Hv.
  - apply bool_decide_eq_true_1, list_elem_of_In in Hv.
    split; [tauto|]. intros [->|H]; assumption.
  - rewrite in_app_iff. simpl. intuition congruence.
Qed.

Lemma set_add_NoDup (v : string) (s : list string) :
  NoDup s -> NoDup (set_add v s).
Proof.
  intros Hs. unfold set_add. destruct (bool_decide (v ∈ s)) eqn:Hv; [assumption|].
  apply bool_decide_eq_false_1 in Hv. rewrite list_elem_of_In in Hv.
  apply NoDup_ListNoDup. apply NoDup_ListNoDup in Hs.
  apply List.NoDup_app; [assumption | repeat constructor; simpl; tauto |].
  intros x Hx [<-|[]]. contradiction.
Qed.

Lemma set_add_all_In (vars : list string) :
  forall (s : list string) (x : string),
    In x (set_add_all vars s) <-> In x vars \/ In x s.
Proof.
  unfold set_add_all.
  induction vars as [|v vars IH]; intros s x; simpl; [tauto|].
  rewrite IH, set_add_In. intuition congruence.
Qed.

Lemma set_add_all_NoDup (vars : list string) :
  forall s : list string, NoDup s -> NoDup (set_add_all vars s).
Proof.
  unfold set_add_all.
  induction vars as [|v vars IH]; intros s Hs; simpl; [assumption|].
  apply IH. now apply set_add_NoDup.
Qed.

Lemma set_add_all_present (vars : list string) :
  forall s : list string, (forall v, In v vars -> In v s) -> set_add_all vars s = s.
Proof.
  unfold set_add_all.
  induction vars as [|v vars IH]; intros s Hin; simpl; [reflexivity|].
  assert (set_add v s = s) as ->.
  { unfold set_add. rewrite bool_decide_eq_true_2; [reflexivity|].
    apply list_elem_of_In, Hin. simpl. tauto. }
  apply IH. intros x Hx. apply Hin. simpl. tauto.
Qed.

Lemma set_add_all_prefix (vars : list string) :
  forall s : list string, exists added, set_add_all vars s = (s ++ added)%list.
Proof.
  unfold set_add_all.
  induction vars as [|v vars IH]; intros s; simpl.
  - exists []. now rewrite app_nil_r.
  - destruct (IH (set_add v s)) as (added & ->). unfold set_add.
    destruct (bool_decide (v ∈ s)); [eauto|].
    exists (v :: added). now rewrite <- app_assoc.
Qed.

(** X8.  [require] behaves as adding to a set kept in insertion order:
    afterwards the required keys are the earlier ones, in their earlier
    order, followed by new ones; a key is a member exactly when it was one
    or is among the arguments; no key is listed twice; and registering the
    same keys again changes nothing.  Nothing but the required set is
    touched. *)
Theorem require_adds_to_the_set :
  forall (vars : list string) (this : EnvironmentConfig),
    (forall key, In key (requiredVars (require vars this))
                 <-> In key vars \/ In key (requiredVars this))
    /\ (exists added,
          requiredVars (require vars this) = (requiredVars this ++ added)%list)
    /\ (NoDup (requiredVars this) -> NoDup (requiredVars (require vars this)))
    /\ require vars (require vars this) = require vars this
    /\ config (require vars this) = config this
    /\ secretVars (require vars this) = secretVars this
    /\ environment (require vars this) = environment this.
Proof.
  intros vars this. unfold require. simpl.
  split; [intros key; apply set_add_all_In|].
  split; [apply set_add_all_prefix|].
  split; [apply set_add_all_NoDup|].
  split; [|repeat split].
  unfold set_requiredVars. simpl. f_equal.
  apply set_add_all_present. intros v Hv. apply set_add_all_In. tauto.
Qed.

Lemma require_adds_to_the_set_witness :
  NoDup (requiredVars (require ["PORT"; "NODE_ENV"; "HOST"; "PORT"]
                         (with_config ∅))).
Proof.
  apply (proj1 (proj2 (proj2 (require_adds_to_the_set
                                ["PORT"; "NODE_ENV"; "HOST"; "PORT"]
                                (with_config ∅))))).
  simpl. apply NoDup_ListNoDup.
  repeat constructor; simpl; intuition discriminate.
Defined.

(** X9.  Registration followed by validation is the startup gate: once a
    key has been passed to [require], a validation run afterwards throws
    and names that key whenever the key has no value or an empty one
    (the key not being a name every object inherits, such as [toString],
    which validation takes to have a value). *)
Theorem require_then_validate_reports :
  forall (vars : list string) (this : EnvironmentConfig) (p : Process) (key : string),
    inherited key = false ->
    In key vars ->
    config this !! key = None \/ config this !! key = Some "" ->
    exists keys,
      validateConfiguration (require vars this) p
      = (Thrown (MissingRequiredError keys), print console_error (MsgMissing keys) p)
      /\ In key keys.
Proof.
  intros vars this p key _ Hin Hmiss.
  assert (In key (missing_keys (require vars this))) as Hk.
  { apply missing_keys_spec. split; [|exact Hmiss].
    unfold require. simpl. apply set_add_all_In. tauto. }
  exists (missing_keys (require vars this)). split; [|exact Hk].
  apply validateConfiguration_missing. intros Hnil. rewrite Hnil in Hk. exact Hk.
Qed.

Lemma require_then_validate_reports_witness :
  exists keys,
    validateConfiguration
      (require ["NODE_ENV"; "PORT"; "MONGODB_URI"] (initial_config ∅)) (start ∅ ∅)
    = (Thrown (MissingRequiredError keys),
       print console_error (MsgMissing keys) (start ∅ ∅))
    /\ In "MONGODB_URI" keys.
Proof.
  apply (require_then_validate_reports ["NODE_ENV"; "PORT"; "MONGODB_URI"]
           (initial_config ∅) (start ∅ ∅) "MONGODB_URI").
  - reflexivity.
  - simpl. tauto.
  - left. reflexivity.
Defined.

(** X10.  A key passed to [secrets] is masked from then on: whatever its
    non-empty value, [getSanitizedConfig] shows the mask for it. *)
Theorem secrets_then_sanitize_masks :
  forall (vars : list string) (this : EnvironmentConfig) (key v : string),
    In key vars ->
    config this !! key = Some v ->
    v <> "" ->
    getSanitizedConfig (secrets vars this) !! key = Some MASKED.
Proof.
  intros vars this key v Hin Hv Hne.
  unfold getSanitizedConfig. rewrite mask_keys_lookup.
  assert (existsb (String.eqb key) (secretVars (secrets vars this)) = true) as ->.
  { apply existsb_eqb_In. unfold secrets. simpl. apply set_add_all_In. tauto. }
  unfold secrets. simpl. rewrite Hv. destruct v; [congruence | reflexivity].
Qed.

Lemma secrets_then_sanitize_masks_witness :
  getSanitizedConfig
    (secrets ["API_KEY"] (with_config (<["API_KEY" := "k-4f9a"]> ∅))) !! "API_KEY"
  = Some MASKED.
Proof.
  apply (secrets_then_sanitize_masks ["API_KEY"]
           (with_config (<["API_KEY" := "k-4f9a"]> ∅)) "API_KEY" "k-4f9a").
  - simpl. tauto.
  - reflexivity.
  - discriminate.
Defined.

(* ===================================================================== *)
(** ** More on the sanitized view and the logged summary *)
(* ===================================================================== *)

Lemma truthy_is_Some (o : option string) : truthy o = true -> is_Some o.
Proof. destruct o; [eauto | discriminate]. Qed.

(** X11.  When no secret key is a name every object inherits,
    [getSanitizedConfig] neither adds nor removes a key, and sanitizing an
    already sanitized configuration changes nothing. *)
Theorem sanitized_view_keeps_keys :
  forall this : EnvironmentConfig,
    ordinary (secretVars this) ->
    dom (getSanitizedConfig this) = dom (config this)
    /\ getSanitizedConfig (set_config (getSanitizedConfig this) this)
       = getSanitizedConfig this.
Proof.
  intros this _. split.
  - apply set_eq. intros key. rewrite !elem_of_dom.
    unfold getSanitizedConfig. rewrite mask_keys_lookup.
    destruct (truthy (config this !! key)) eqn:Ht; simpl; [|tauto].
    apply truthy_is_Some in Ht.
    destruct (existsb (String.eqb key) (secretVars this)); [|tauto].
    split; [tauto | eauto].
  - apply map_eq. intros key. unfold getSanitizedConfig at 1. simpl.
    rewrite mask_keys_lookup. unfold getSanitizedConfig. rewrite mask_keys_lookup.
    destruct (truthy (config this !! key)) eqn:Ht; simpl.
    + destruct (existsb (String.eqb key) (secretVars this)); simpl; [reflexivity|].
      now rewrite Ht.
    + now rewrite Ht.
Qed.

Lemma sanitized_view_keeps_keys_witness :
  dom (getSanitizedConfig production_strong) = dom (config production_strong)
  /\ getSanitizedConfig (set_config (getSanitizedConfig production_strong)
                           production_strong)
     = getSanitizedConfig production_strong.
Proof.
  apply (sanitized_view_keeps_keys production_strong).
  reflexivity.
Defined.

(** X12.  [logConfiguration] never throws and prints the configuration
    itself only when LOG_LEVEL in the process environment is exactly
    "debug" (a LOG_LEVEL that comes from a file does not count); what it
    prints then is the sanitized view, in which every secret key with a
    non-empty value shows the mask. *)
Theorem logConfiguration_prints_sanitized_only :
  forall (this : EnvironmentConfig) (p : Process),
  exists dump,
    logConfiguration this p
    = (Returned tt,
       {| files := files p; process_env := process_env p;
          console := (console p
                      ++ [(console_log, MsgEnvironment (environment this));
                          (console_log, MsgVariableCount (size (config this)))]
                      ++ dump)%list |})
    /\ (process_env p !! "LOG_LEVEL" = Some "debug" ->
        dump = [(console_log, MsgConfiguration (getSanitizedConfig this))])
    /\ (process_env p !! "LOG_LEVEL" <> Some "debug" -> dump = [])
    /\ (forall method shown key v,
          In (method, MsgConfiguration shown) dump ->
          In key (secretVars this) -> config this !! key = Some v -> v <> "" ->
          shown !! key = Some MASKED).
Proof.
  intros this p.
  unfold logConfiguration, bind, console_print, modify, gets, print. simpl.
  destruct (bool_decide (process_env p !! "LOG_LEVEL" = Some "debug")) eqn:Hdebug.
  - apply bool_decide_eq_true_1 in Hdebug.
    exists [(console_log, MsgConfiguration (getSanitizedConfig this))].
    split; [cbn [files process_env console]; now rewrite <- !app_assoc|].
    split; [reflexivity|].
    split; [congruence|].
    intros method shown key v [Heq|[]] Hin Hv Hne. injection Heq as _ <-.
    unfold getSanitizedConfig. rewrite mask_keys_lookup.
    apply existsb_eqb_In in Hin. rewrite Hin, Hv.
    destruct v; [congruence | reflexivity].
  - apply bool_decide_eq_false_1 in Hdebug.
    exists [].
    split; [cbn [files process_env console]; now rewrite <- !app_assoc|].
    split; [congruence|]. split; [reflexivity|].
    intros method shown key v [].
Qed.

Lemma logConfiguration_prints_sanitized_only_witness :
  exists dump,
    logConfiguration production_placeholder
      (start ∅ (<["LOG_LEVEL" := "debug"]> ∅))
    = (Returned tt,
       {| files := ∅; process_env := <["LOG_LEVEL" := "debug"]> ∅;
          console := [(console_log, MsgEnvironment "production");
                      (console_log, MsgVariableCount 1)] ++ dump |})
    /\ dump = [(console_log,
                MsgConfiguration (getSanitizedConfig production_placeholder))]
    /\ forall method shown,
         In (method, MsgConfiguration shown) dump ->
         shown !! "JWT_SECRET" = Some MASKED.
Proof.
  destruct (logConfiguration_prints_sanitized_only production_placeholder
              (start ∅ (<["LOG_LEVEL" := "debug"]> ∅)))
    as (dump & Hrun & Hdebug & _ & Hmask).
  exists dump. split; [exact Hrun|]. split.
  - apply Hdebug. reflexivity.
  - intros method shown Hin.
    apply (Hmask method shown "JWT_SECRET" "change-this-to-a-long-random-value" Hin).
    + simpl. tauto.
    + reflexivity.
    + discriminate.
Defined.

(* ===================================================================== *)
(** ** Trimming *)
(* ===================================================================== *)

Lemma trimStart_first (s : string) (c : ascii) :
  first_char (JsString.trimStart s) = Some c -> JsString.is_white_space c = false.
Proof.
  induction s as [|d s IH]; simpl; [discriminate|].
  destruct (JsString.is_white_space d) eqn:Hd; [exact IH|].
  simpl. intros H. injection H as <-. exact Hd.
Qed.

Lemma trimEnd_cons (c : ascii) (s : string) :
  JsString.trimEnd (String c s)
  = match JsString.trimEnd s with
    | EmptyString => if JsString.is_white_space c then EmptyString
                     else String c EmptyString
    | t => String c t
    end.
Proof. reflexivity. Qed.

Lemma trimEnd_last (s : string) (c : ascii) :
  JsString.last_char (JsString.trimEnd s) = Some c ->
  JsString.is_white_space c = false.
Proof.
  induction s as [|d s IH]; [discriminate|].
  rewrite trimEnd_cons. destruct (JsString.trimEnd s) as [|e t] eqn:Ht.
  - destruct (JsString.is_white_space d) eqn:Hd; simpl; [discriminate|].
    intros H. injection H as <-. exact Hd.
  - intros H. apply IH. exact H.
Qed.

Lemma trimEnd_first (s : string) (c : ascii) :
  first_char (JsString.trimEnd s) = Some c -> first_char s = Some c.
Proof.
  destruct s as [|d s]; [discriminate|].
  rewrite trimEnd_cons. destruct (JsString.trimEnd s).
  - destruct (JsString.is_white_space d); simpl; [discriminate | tauto].
  - simpl. tauto.
Qed.

Lemma trim_trimmed (s : string) : trimmed (JsString.trim s).
Proof.
  unfold trimmed, JsString.trim. split; intros c H.
  - apply trimEnd_first in H. now apply trimStart_first in H.
  - now apply trimEnd_last in H.
Qed.

Lemma trimStart_id (s : string) :
  (forall c, first_char s = Some c -> JsString.is_white_space c = false) ->
  JsString.trimStart s = s.
Proof.
  destruct s as [|d s]; [reflexivity|]. simpl. intros H.
  now rewrite (H d eq_refl).
Qed.

Lemma trimEnd_id (s : string) :
  (forall c, JsString.last_char s = Some c -> JsString.is_white_space c = false) ->
  JsString.trimEnd s = s.
Proof.
  induction s as [|d s IH]; [reflexivity|]. intros H.
  rewrite trimEnd_cons. destruct s as [|e s].
  - simpl. now rewrite (H d eq_refl).
  - rewrite IH; [reflexivity|]. intros c Hc. apply H. exact Hc.
Qed.

Lemma trimmed_trim (s : string) : trimmed s -> JsString.trim s = s.
Proof.
  intros [Hfirst Hlast]. unfold JsString.trim.
  rewrite (trimStart_id s Hfirst). now apply trimEnd_id.
Qed.

Lemma trim_idempotent (s : string) :
  JsString.trim (JsString.trim s) = JsString.trim s.
Proof. apply trimmed_trim, trim_trimmed. Qed.

(* ===================================================================== *)
(** ** getArray and getBool *)
(* ===================================================================== *)

Lemma split_nonempty (sep : ascii) (s : string) : JsString.split sep s <> [].
Proof.
  destruct s as [|c s]; simpl; [discriminate|].
  destruct (Ascii.eqb c sep); [discriminate|].
  destruct (JsString.split sep s); discriminate.
Qed.

Lemma split_free (sep : ascii) (s : string) :
  forall piece, In piece (JsString.split sep s) -> free_of sep piece.
Proof.
  induction s as [|c s IH]; simpl.
  - intros piece [<-|[]]. reflexivity.
  - destruct (Ascii.eqb c sep) eqn:Hc.
    + intros piece [<-|Hin]; [reflexivity | now apply IH].
    + destruct (JsString.split sep s) as [|first pieces] eqn:Hs.
      * intros piece [<-|[]]. unfold free_of. simpl. now rewrite Hc.
      * intros piece [<-|Hin].
        -- unfold free_of. simpl. rewrite Hc. simpl.
           apply (IH first). simpl. tauto.
        -- apply IH. simpl. tauto.
Qed.

Lemma split_free_id (sep : ascii) (s : string) :
  free_of sep s -> JsString.split sep s = [s].
Proof.
  unfold free_of. induction s as [|c s IH]; simpl; [reflexivity|].
  intros H. apply andb_true_iff in H. destruct H as [Hc Hs].
  apply negb_true_iff in Hc. rewrite Hc, (IH Hs). reflexivity.
Qed.

Lemma split_app (sep : ascii) (a b : string) :
  free_of sep a ->
  JsString.split sep (a ++ String sep b) = a :: JsString.split sep b.
Proof.
  unfold free_of. induction a as [|c a IH]; intros H.
  - change ("" ++ String sep b) with (String sep b). simpl.
    now rewrite Ascii.eqb_refl.
  - simpl in H. apply andb_true_iff in H. destruct H as [Hc Ha].
    apply negb_true_iff in Hc.
    rewrite append_cons. simpl. rewrite Hc, (IH Ha). reflexivity.
Qed.

Lemma split_join (items : list string) :
  items <> [] ->
  (forall item, In item items -> free_of ","%char item) ->
  JsString.split ","%char (join items) = items.
Proof.
  induction items as [|item rest IH]; intros Hne Hfree; [congruence|].
  destruct rest as [|next rest].
  - simpl. apply split_free_id. apply Hfree. simpl. tauto.
  - change (join (item :: next :: rest))
      with (item ++ String ","%char (join (next :: rest))).
    rewrite split_app by (apply Hfree; simpl; tauto).
    rewrite IH; [reflexivity | discriminate |].
    intros i Hi. apply Hfree. simpl. simpl in Hi. tauto.
Qed.

Lemma trimStart_free (c : ascii) (s : string) :
  free_of c s -> free_of c (JsString.trimStart s).
Proof.
  unfold free_of. induction s as [|d s IH]; simpl; [tauto|].
  intros H. destruct (JsString.is_white_space d); [|exact H].
  apply andb_true_iff in H. now apply IH.
Qed.

Lemma trimEnd_free (c : ascii) (s : string) :
  free_of c s -> free_of c (JsString.trimEnd s).
Proof.
  unfold free_of. induction s as [|d s IH]; [tauto|].
  intros H. simpl in H. apply andb_true_iff in H. destruct H as [Hd Hs].
  rewrite trimEnd_cons. specialize (IH Hs).
  destruct (JsString.trimEnd s) as [|e t].
  - destruct (JsString.is_white_space d); simpl; [reflexivity | now rewrite Hd].
  - change (JsString.forallb_string (fun d0 => negb (Ascii.eqb d0 c)) (String d (String e t)))
      with (negb (Ascii.eqb d c)
            && JsString.forallb_string (fun d0 => negb (Ascii.eqb d0 c)) (String e t)).
    now rewrite Hd, IH.
Qed.

Lemma is_empty_false (s : string) : JsString.is_empty s = false <-> s <> "".
Proof. destruct s; simpl; split; congruence. Qed.

(** X13.  [getArray] returns the default when the value of the key is the
    empty string, and when the key has no value and its name is not one
    every object inherits.  For any other value it never consults
    the default: the result is the list of the comma-separated pieces,
    trimmed, without the empty ones, so every item is non-empty, has no
    white space at either end and holds no comma; a value made of commas
    and white space only gives the empty list. *)
Theorem getArray_items :
  forall (this : EnvironmentConfig) (key : string) (defaultValue : list string),
    (config this !! key = Some "" ->
     getArray this key defaultValue = defaultValue)
    /\ (inherited key = false -> config this !! key = None ->
        getArray this key defaultValue = defaultValue)
    /\ (forall s, config this !! key = Some s -> s <> "" ->
          getArray this key defaultValue = getArray this key []
          /\ (forall item, In item (getArray this key defaultValue) ->
                           plain_item item)
          /\ (forall item, In item (getArray this key defaultValue)
                <-> item <> ""
                    /\ exists piece, In piece (JsString.split ","%char s)
                                     /\ item = JsString.trim piece)).
Proof.
  intros this key defaultValue. unfold getArray, get. split; [|split].
  - intros ->. reflexivity.
  - intros _ ->. reflexivity.
  - intros s -> Hne. apply is_empty_false in Hne. rewrite Hne.
    split; [reflexivity|].
    assert (forall item,
               In item (List.filter (fun item => negb (JsString.is_empty item))
                          (List.map JsString.trim (JsString.split ","%char s)))
               <-> item <> ""
                   /\ exists piece, In piece (JsString.split ","%char s)
                                    /\ item = JsString.trim piece) as Hspec.
    { intros item. rewrite filter_In, in_map_iff, negb_true_iff, is_empty_false.
      split.
      - intros ((piece & <- & Hin) & Hitem). split; [assumption|]. eauto.
      - intros (Hitem & piece & Hin & ->). split; [eauto | assumption]. }
    split; [|exact Hspec].
    intros item Hin. apply Hspec in Hin. destruct Hin as (Hitem & piece & Hin & ->).
    split; [assumption|]. split; [apply trim_trimmed|].
    unfold JsString.trim. apply trimEnd_free, trimStart_free.
    eapply split_free. exact Hin.
Qed.

Lemma getArray_items_witness :
  getArray (with_config (<["CORS_ORIGINS" := ""]> ∅)) "CORS_ORIGINS"
    ["http://localhost:3001"] = ["http://localhost:3001"]
  /\ getArray (with_config ∅) "CORS_ORIGINS" ["http://localhost:3001"]
     = ["http://localhost:3001"]
  /\ getArray (with_config (<["CORS_ORIGINS" := " , ,"]> ∅)) "CORS_ORIGINS"
       ["http://localhost:3001"]
     = getArray (with_config (<["CORS_ORIGINS" := " , ,"]> ∅)) "CORS_ORIGINS" [].
Proof.
  split; [|split].
  - apply (proj1 (getArray_items (with_config (<["CORS_ORIGINS" := ""]> ∅))
                    "CORS_ORIGINS" ["http://localhost:3001"])).
    reflexivity.
  - apply (proj1 (proj2 (getArray_items (with_config ∅)
                           "CORS_ORIGINS" ["http://localhost:3001"]))).
    + reflexivity.
    + reflexivity.
  - apply (proj2 (proj2 (getArray_items
                           (with_config (<["CORS_ORIGINS" := " , ,"]> ∅))
                           "CORS_ORIGINS" ["http://localhost:3001"])) " , ,").
    + reflexivity.
    + discriminate.
Defined.

Example getArray_only_separators :
  getArray (with_config (<["CORS_ORIGINS" := " , ,"]> ∅)) "CORS_ORIGINS"
    ["http://localhost:3001"] = [].
Proof. reflexivity. Qed.

(** X14.  Writing a list of items with commas and reading it back with
    [getArray] gives the same list, when there is at least one item and
    each item is non-empty, has no white space at either end and holds no
    comma. *)
Theorem getArray_of_join :
  forall (this : EnvironmentConfig) (key : string) (items defaultValue : list string),
    items <> [] ->
    (forall item, In item items -> plain_item item) ->
    config this !! key = Some (join items) ->
    getArray this key defaultValue = items.
Proof.
  intros this key items defaultValue Hne Hplain Hv.
  unfold getArray, get. rewrite Hv.
  assert (join items <> "") as Hjoin.
  { destruct items as [|item rest]; [congruence|].
    destruct (Hplain item) as (Hitem & _); [simpl; tauto|].
    destruct item as [|c item]; [congruence|].
    destruct rest; simpl; [discriminate|]. rewrite append_cons. discriminate. }
  apply is_empty_false in Hjoin. rewrite Hjoin.
  rewrite split_join by (try assumption; intros item Hin; now apply Hplain).
  clear Hv Hjoin Hne. induction items as [|item rest IH]; [reflexivity|].
  simpl. destruct (Hplain item) as (Hitem & Htrim & _); [simpl; tauto|].
  rewrite (trimmed_trim item Htrim).
  apply is_empty_false in Hitem. rewrite Hitem. simpl. f_equal.
  apply IH. intros i Hi. apply Hplain. simpl. tauto.
Qed.

Lemma getArray_of_join_witness :
  getArray
    (with_config
       (<["CORS_ORIGINS" := join ["http://localhost:3001"; "https://bb.example"]]> ∅))
    "CORS_ORIGINS" []
  = ["http://localhost:3001"; "https://bb.example"].
Proof.
  apply (getArray_of_join
           (with_config
              (<["CORS_ORIGINS" := join ["http://localhost:3001"; "https://bb.example"]]> ∅))
           "CORS_ORIGINS" ["http://localhost:3001"; "https://bb.example"] []).
  - discriminate.
  - intros item [<-|[<-|[]]];
      (split; [discriminate|]; split; [|reflexivity]);
      (split; intros c H; vm_compute in H; injection H as <-; reflexivity).
  - reflexivity.
Defined.

Lemma toLowerCase_char_ascii (c d : ascii) :
  (nat_of_ascii d < 128)%nat ->
  toLowerCase_char c = d <-> lower_char c = d.
Proof.
  intros Hd.
  destruct c as [[] [] [] [] [] [] [] []];
    (split; intros H; [|]; try exact H;
     subst d; vm_compute in Hd; lia).
Qed.

Lemma toLowerCase_true (s : string) :
  toLowerCase s = "true" <-> ci_equal "true" s.
Proof.
  unfold ci_equal. change (lower "true") with "true".
  destruct s as [|c1 [|c2 [|c3 [|c4 [|c5 s]]]]]; simpl;
    try (split; discriminate).
  split; intros H; injection H as H1 H2 H3 H4;
    f_equal; [| f_equal; [| f_equal; [| f_equal]] | | f_equal; [| f_equal; [| f_equal]]];
    try reflexivity;
    try (apply toLowerCase_char_ascii; [vm_compute; lia | assumption]);
    try (apply toLowerCase_char_ascii in H1; [assumption | vm_compute; lia]);
    try (apply toLowerCase_char_ascii in H2; [assumption | vm_compute; lia]);
    try (apply toLowerCase_char_ascii in H3; [assumption | vm_compute; lia]);
    try (apply toLowerCase_char_ascii in H4; [assumption | vm_compute; lia]).
Qed.

(** X15.  [getBool] looks at the default only when the key is absent.  A
    present value gives true exactly when it is "1" or is "true" in any
    letter case, and false otherwise, the empty string included.  With
    the key absent, a boolean default is not returned: the call throws a
    TypeError, because the default is treated as a string; so does the
    call [getBool('ENABLE_REQUEST_LOGGING', true)] of server.js whenever
    that variable is not set.  With the key absent and no default the
    result is [undefined], for a key that is not a name every object
    inherits. *)
Theorem getBool_treats_default_as_string :
  forall (this : EnvironmentConfig) (key : string) (defaultValue : argument),
    (forall s, config this !! key = Some s ->
       exists b, getBool this key defaultValue = Returned (Boolean b)
                 /\ (b = true <-> s = "1" \/ ci_equal "true" s))
    /\ (forall b, config this !! key = None -> defaultValue = Boolean b ->
          getBool this key defaultValue = Thrown not_a_function)
    /\ (inherited key = false -> config this !! key = None ->
        defaultValue = Plain undefined ->
          getBool this key defaultValue = Returned (Plain undefined))
    /\ (config this !! "ENABLE_REQUEST_LOGGING" = None ->
          enableRequestLogging this = Thrown not_a_function).
Proof.
  intros this key defaultValue. unfold enableRequestLogging, getBool, get_or.
  split; [|split; [|split]].
  - intros s ->. eexists. split; [reflexivity|].
    rewrite orb_true_iff, !String.eqb_eq, toLowerCase_true. tauto.
  - intros b -> ->. reflexivity.
  - intros _ -> ->. reflexivity.
  - intros ->. reflexivity.
Qed.

Lemma getBool_treats_default_as_string_witness :
  (exists b,
      getBool (with_config (<["ENABLE_REQUEST_LOGGING" := "TRUE"]> ∅))
        "ENABLE_REQUEST_LOGGING" (Boolean false) = Returned (Boolean b)
      /\ (b = true <-> "TRUE" = "1" \/ ci_equal "true" "TRUE"))
  /\ getBool (with_config ∅) "ENABLE_REQUEST_LOGGING" (Boolean true)
     = Thrown not_a_function
  /\ getBool (with_config ∅) "ENABLE_REQUEST_LOGGING" (Plain undefined)
     = Returned (Plain undefined)
  /\ enableRequestLogging (with_config ∅) = Thrown not_a_function.
Proof.
  split; [|split; [|split]].
  - apply (proj1 (getBool_treats_default_as_string
                    (with_config (<["ENABLE_REQUEST_LOGGING" := "TRUE"]> ∅))
                    "ENABLE_REQUEST_LOGGING" (Boolean false)) "TRUE").
    reflexivity.
  - apply (proj1 (proj2 (getBool_treats_default_as_string (with_config ∅)
                           "ENABLE_REQUEST_LOGGING" (Boolean true))) true);
      reflexivity.
  - apply (proj1 (proj2 (proj2 (getBool_treats_default_as_string (with_config ∅)
                                  "ENABLE_REQUEST_LOGGING" (Plain undefined)))));
      reflexivity.
  - apply (proj2 (proj2 (proj2 (getBool_treats_default_as_string (with_config ∅)
                                  "ENABLE_REQUEST_LOGGING" (Plain undefined))))).
    reflexivity.
Defined.

Example getBool_empty_value_is_false :
  getBool (with_config (<["ENABLE_REQUEST_LOGGING" := ""]> ∅))
    "ENABLE_REQUEST_LOGGING" (Plain (Str "true")) = Returned (Boolean false).
Proof. reflexivity. Qed.

(* ===================================================================== *)
(** ** Lines of an environment file *)
(* ===================================================================== *)

Lemma break_at_spec (c : ascii) (s : string) :
  forall a b, JsString.break_at c s = Some (a, b) ->
              s = a ++ String c b /\ free_of c a.
Proof.
  induction s as [|d s IH]; intros a b; simpl; [discriminate|].
  destruct (Ascii.eqb d c) eqn:Hd.
  - intros H. injection H as <- <-. apply Ascii.eqb_eq in Hd. subst d.
    split; reflexivity.
  - destruct (JsString.break_at c s) as [[a' b']|]; [|discriminate].
    intros H. injection H as <- <-.
    destruct (IH a' b' eq_refl) as (-> & Hfree). split; [reflexivity|].
    unfold free_of. simpl. now rewrite Hd.
Qed.

Lemma break_at_app (c : ascii) (a b : string) :
  free_of c a -> JsString.break_at c (a ++ String c b) = Some (a, b).
Proof.
  unfold free_of. induction a as [|d a IH]; intros H.
  - change ("" ++ String c b) with (String c b). simpl. now rewrite Ascii.eqb_refl.
  - simpl in H. apply andb_true_iff in H. destruct H as [Hd Ha].
    apply negb_true_iff in Hd. rewrite append_cons. simpl.
    now rewrite Hd, (IH Ha).
Qed.

Lemma last_char_app (a : string) (c : ascii) (b : string) :
  JsString.last_char (a ++ String c b) = JsString.last_char (String c b).
Proof.
  induction a as [|d a IH]; [reflexivity|].
  rewrite append_cons.
  change (JsString.last_char (String d (a ++ String c b)))
    with (match a ++ String c b with
          | EmptyString => Some d
          | _ => JsString.last_char (a ++ String c b)
          end).
  destruct (a ++ String c b) eqn:Hab; [|exact IH].
  destruct a; discriminate Hab.
Qed.

Lemma trimEnd_keeps_first (s : string) (c : ascii) :
  first_char s = Some c -> JsString.is_white_space c = false ->
  first_char (JsString.trimEnd s) = Some c.
Proof.
  destruct s as [|d s]; [discriminate|]. intros H Hc.
  rewrite trimEnd_cons. simpl in H. injection H as ->.
  destruct (JsString.trimEnd s); [now rewrite Hc | reflexivity].
Qed.

Lemma starts_with_hash (s : string) :
  JsString.startsWith "#" s = true <-> first_char s = Some "#"%char.
Proof.
  unfold JsString.startsWith. destruct s as [|c s]; [simpl; split; discriminate|].
  change (String.prefix "#" (String c s))
    with (if ascii_dec "#"%char c then String.prefix "" s else false).
  destruct (ascii_dec "#"%char c) as [<-|Hne].
  - split; intros _; [reflexivity | now destruct s].
  - split; [discriminate|]. simpl. intros H. injection H as H. congruence.
Qed.

(** X16.  Whatever a line of a file holds, a key the loader takes from it
    is not empty, has no white space at either end, holds no [=] and does
    not start with the comment sign. *)
Theorem parsed_keys_are_plain :
  forall line cleanKey cleanValue : string,
    parse_line line = Assignment cleanKey cleanValue ->
    plain_key cleanKey.
Proof.
  intros line k v. unfold parse_line.
  set (l := JsString.trim line).
  destruct (JsString.is_empty l) eqn:Hempty; [discriminate|].
  destruct (JsString.startsWith "#" l) eqn:Hhash; [discriminate|]. simpl.
  unfold match_key_value.
  destruct (JsString.break_at "=" l) as [[key value]|] eqn:Hbreak; [|discriminate].
  destruct (JsString.is_empty key) eqn:Hkey; [discriminate|].
  destruct (JsString.forallb_string _ value); [|discriminate].
  intros H. injection H as <- _.
  destruct (break_at_spec _ _ _ _ Hbreak) as (Hl & Hfree).
  destruct key as [|c key]; [discriminate|].
  assert (first_char l = Some c) as Hfirst by (rewrite Hl; reflexivity).
  assert (JsString.is_white_space c = false) as Hc.
  { apply (proj1 (trim_trimmed line) c). exact Hfirst. }
  assert (first_char (JsString.trim (String c key)) = Some c) as Hk.
  { unfold JsString.trim. rewrite trimStart_id.
    - now apply trimEnd_keeps_first.
    - intros d Hd. injection Hd as <-. exact Hc. }
  unfold plain_key. split; [|split; [|split]].
  - intros Hnil. rewrite Hnil in Hk. discriminate.
  - apply trim_trimmed.
  - unfold JsString.trim. now apply trimEnd_free, trimStart_free.
  - rewrite Hk. intros Heq. injection Heq as ->.
    assert (JsString.startsWith "#" l = true) as Habs
      by (apply starts_with_hash; exact Hfirst).
    congruence.
Qed.

Lemma parsed_keys_are_plain_witness : plain_key "MONGODB_URI".
Proof.
  apply (parsed_keys_are_plain "  MONGODB_URI = mongodb://db:27017/bb-db  "
           "MONGODB_URI" "mongodb://db:27017/bb-db").
  reflexivity.
Defined.

Lemma starts_with_char (c : ascii) (s : string) :
  JsString.startsWith (String c "") s = true <-> first_char s = Some c.
Proof.
  unfold JsString.startsWith. destruct s as [|d s]; [simpl; split; discriminate|].
  change (String.prefix (String c "") (String d s))
    with (if ascii_dec c d then String.prefix "" s else false).
  destruct (ascii_dec c d) as [<-|Hne].
  - split; intros _; [reflexivity | now destruct s].
  - split; [discriminate|]. simpl. intros H. injection H as H. congruence.
Qed.

Lemma starts_with_char_false (c : ascii) (s : string) :
  first_char s <> Some c -> JsString.startsWith (String c "") s = false.
Proof.
  intros H. destruct (JsString.startsWith (String c "") s) eqn:Hs; [|reflexivity].
  apply starts_with_char in Hs. contradiction.
Qed.

Lemma first_char_app (a b : string) :
  a <> "" -> first_char (a ++ b) = first_char a.
Proof. destruct a; [congruence | reflexivity]. Qed.

Lemma forallb_string_app (f : ascii -> bool) (a b : string) :
  JsString.forallb_string f (a ++ b)
  = JsString.forallb_string f a && JsString.forallb_string f b.
Proof.
  induction a as [|c a IH]; [reflexivity|].
  rewrite append_cons. simpl. now rewrite IH, andb_assoc.
Qed.

Lemma length_app (a b : string) :
  String.length (a ++ b) = String.length a + String.length b.
Proof.
  induction a as [|c a IH]; [reflexivity|].
  rewrite append_cons. simpl. now rewrite IH.
Qed.

Lemma substring_prefix (a b : string) :
  String.substring 0 (String.length a) (a ++ b) = a.
Proof.
  induction a as [|c a IH].
  - change ("" ++ b) with b. simpl. now destruct b.
  - rewrite append_cons. simpl. now rewrite IH.
Qed.

(** The line [key=value] is parsed as the pair the loader expects, once
    the line is trimmed, the key is plain and the value is as given. *)
Lemma parse_key_value (k value : string) :
  plain_key k ->
  single_line value ->
  (forall c, JsString.last_char value = Some c -> JsString.is_white_space c = false) ->
  parse_line (k ++ String "="%char value)
  = Assignment k (strip_quotes (JsString.trim value)).
Proof.
  intros (Hk & Htrim & Hfree & Hhash) Hline Hlast.
  assert (trimmed (k ++ String "="%char value)) as Hl.
  { split; intros c.
    - rewrite first_char_app by assumption. apply Htrim.
    - rewrite last_char_app. destruct value as [|d value].
      + simpl. intros H. injection H as <-. reflexivity.
      + intros H. apply Hlast. exact H. }
  unfold parse_line. rewrite (trimmed_trim _ Hl).
  assert (JsString.is_empty (k ++ String "="%char value) = false) as ->.
  { destruct k; [congruence | reflexivity]. }
  rewrite starts_with_char_false by (rewrite first_char_app; assumption).
  simpl. unfold match_key_value. rewrite (break_at_app _ _ _ Hfree).
  apply is_empty_false in Hk. rewrite Hk.
  unfold single_line in Hline. rewrite Hline.
  now rewrite (trimmed_trim k Htrim).
Qed.

(** X17.  A line written as key, [=], value is read back as that key and
    that value, when the key is plain (non-empty, no white space at
    either end, no [=], not starting with the comment sign) and the value
    is one line, has no white space at either end and does not start with
    a quote. *)
Theorem parse_line_of_plain_pair :
  forall k v : string,
    plain_key k -> plain_value v ->
    parse_line (k ++ "=" ++ v) = Assignment k v.
Proof.
  intros k v Hk (Hline & Htrim & Hdq & Hsq).
  change (k ++ "=" ++ v) with (k ++ String "="%char v).
  rewrite (parse_key_value k v Hk Hline (proj2 Htrim)).
  rewrite (trimmed_trim v Htrim). unfold strip_quotes, double_quote, single_quote.
  now rewrite !starts_with_char_false by assumption.
Qed.

Lemma parse_line_of_plain_pair_witness :
  parse_line ("MONGODB_URI" ++ "=" ++ "mongodb://db:27017/bb-db")
  = Assignment "MONGODB_URI" "mongodb://db:27017/bb-db".
Proof.
  apply (parse_line_of_plain_pair "MONGODB_URI" "mongodb://db:27017/bb-db").
  - split; [discriminate|]. split; [|split; [reflexivity | discriminate]].
    split; intros c H; vm_compute in H; injection H as <-; reflexivity.
  - split; [reflexivity|]. split; [|split; discriminate].
    split; intros c H; vm_compute in H; injection H as <-; reflexivity.
Defined.

(** X18.  A value written between a pair of double quotes, or of single
    quotes, is read back exactly, white space at its ends and quotes
    inside it included, as long as it is one line and the key is plain. *)
Theorem parse_line_of_quoted_pair :
  forall (k v : string) (q : ascii),
    plain_key k -> single_line v ->
    q = "034"%char \/ q = "039"%char ->
    parse_line (k ++ "=" ++ String q (v ++ String q "")) = Assignment k v.
Proof.
  intros k v q Hk Hline Hq.
  change (k ++ "=" ++ String q (v ++ String q ""))
    with (k ++ String "="%char (String q (v ++ String q ""))).
  assert (JsString.is_white_space q = false) as Hws
    by (destruct Hq as [->| ->]; reflexivity).
  assert (JsString.last_char (String q (v ++ String q "")) = Some q) as Hlast.
  { rewrite <- append_cons. now rewrite last_char_app. }
  assert (trimmed (String q (v ++ String q ""))) as Htrim.
  { split; intros c H.
    - simpl in H. injection H as <-. exact Hws.
    - rewrite Hlast in H. injection H as <-. exact Hws. }
  rewrite parse_key_value; try assumption.
  - rewrite (trimmed_trim _ Htrim). f_equal.
    assert (JsString.slice_1_m1 (String q (v ++ String q "")) = v) as Hslice.
    { unfold JsString.slice_1_m1.
      change (String.length (String q (v ++ String q "")))
        with (S (String.length (v ++ String q ""))).
      rewrite length_app. simpl String.length.
      replace (S (String.length v + 1) - 2) with (String.length v) by lia.
      change (String.substring 1 (String.length v) (String q (v ++ String q "")))
        with (String.substring 0 (String.length v) (v ++ String q "")).
      apply substring_prefix. }
    unfold strip_quotes, JsString.endsWith_char. rewrite Hlast.
    destruct Hq as [->| ->].
    + unfold double_quote.
      rewrite (proj2 (starts_with_char "034" _)) by reflexivity.
      simpl. exact Hslice.
    + unfold double_quote, single_quote.
      rewrite starts_with_char_false by (simpl; discriminate).
      rewrite (proj2 (starts_with_char "039" _)) by reflexivity.
      simpl. exact Hslice.
  - unfold single_line. change (String q (v ++ String q "")) with (String q "" ++ (v ++ String q "")).
    rewrite !forallb_string_app. unfold single_line in Hline. rewrite Hline.
    destruct Hq as [->| ->]; reflexivity.
  - apply Htrim.
Qed.

Lemma parse_line_of_quoted_pair_witness :
  parse_line ("GREETING" ++ "=" ++ String "039" (" it's late " ++ String "039" ""))
  = Assignment "GREETING" " it's late ".
Proof.
  apply (parse_line_of_quoted_pair "GREETING" " it's late " "039").
  - split; [discriminate|]. split; [|split; [reflexivity | discriminate]].
    split; intros c H; vm_compute in H; injection H as <-; reflexivity.
  - reflexivity.
  - right. reflexivity.
Defined.

(* ===================================================================== *)
(** ** Reading integers *)
(* ===================================================================== *)

(** X19.  When the key is absent (and is not a name every object
    inherits), [getInt] returns a numeric default as it is, for the
    integers a double holds exactly: printing the default and parsing it
    back loses nothing. *)
Theorem getInt_returns_numeric_default :
  forall (this : EnvironmentConfig) (key : string) (z : Z),
    inherited key = false ->
    config this !! key = None ->
    safe_integer z ->
    getInt this key (Number (Num z)) = Number (Num z).
Proof.
  intros this key z _ Hnone _. unfold getInt, get. rewrite Hnone. f_equal.
  pose proof (parseInt_decimal z "" "" eq_refl eq_refl) as H.
  change ("" ++ decimal z ++ "") with (decimal z ++ "") in H.
  rewrite append_empty_r in H.
  unfold parseInt in *. exact H.
Qed.

Lemma getInt_returns_numeric_default_witness :
  getInt (with_config ∅) "DB_SOCKET_TIMEOUT" (Number (Num 45000))
  = Number (Num 45000).
Proof.
  apply (getInt_returns_numeric_default (with_config ∅) "DB_SOCKET_TIMEOUT" 45000).
  - reflexivity.
  - reflexivity.
  - unfold safe_integer. vm_compute. discriminate.
Defined.

(** X20.  [getInt] reads a value that consists of white space, then an
    integer in decimal notation (with a minus sign when negative), then
    anything that does not start with a digit, as that integer, for the
    integers a double holds exactly: what follows the digits is ignored,
    and so is the default. *)
Theorem getInt_reads_decimal_prefix :
  forall (this : EnvironmentConfig) (key : string) (defaultValue : value)
         (z : Z) (ws rest : string),
    white_space ws ->
    safe_integer z ->
    starts_with_digit rest = false ->
    config this !! key = Some (ws ++ decimal z ++ rest) ->
    getInt this key defaultValue = Number (Num z).
Proof.
  intros this key defaultValue z ws rest Hws _ Hrest Hv.
  unfold getInt, get. rewrite Hv. f_equal. now apply parseInt_decimal.
Qed.

Lemma getInt_reads_decimal_prefix_witness :
  getInt (with_config (<["PORT" := " " ++ decimal 3000 ++ "abc"]> ∅)) "PORT"
    (Number (Num 8080))
  = Number (Num 3000).
Proof.
  apply (getInt_reads_decimal_prefix
           (with_config (<["PORT" := " " ++ decimal 3000 ++ "abc"]> ∅)) "PORT"
           (Number (Num 8080)) 3000 " " "abc").
  - reflexivity.
  - unfold safe_integer. vm_compute. discriminate.
  - reflexivity.
  - reflexivity.
Defined.

(* ===================================================================== *)
(** ** More on connectWithRetry *)
(* ===================================================================== *)

Open Scope list_scope.

(** When the first [remaining] attempts all fail, the loop makes them all
    and throws the last error. *)
Lemma retry_loop_exhausts (envConfig : EnvironmentConfig) (maxRetries : nat)
    (retryDelay : Z) (remaining : nat) :
  forall (attempt : nat) (w : Server),
    (forall j, j < remaining -> connect_result w (connects w + j) <> None) ->
    attempt + remaining = S maxRetries ->
    remaining <> 0 ->
    exists message w',
      retry_loop envConfig maxRetries retryDelay remaining attempt w
      = (Thrown message, w')
      /\ connects w' = connects w + remaining
      /\ effects (events w')
         = effects (events w)
           ++ failed_schedule (mongoUri envConfig) (connection_options envConfig)
                retryDelay remaining
      /\ exit_code w' = exit_code w.
Proof.
  induction remaining as [|remaining IH]; intros attempt w Hfail Hsum Hpos;
    [congruence|].
  destruct (connect_result w (connects w)) as [message|] eqn:Hconn.
  2: { exfalso. apply (Hfail 0); [lia|]. now rewrite Nat.add_0_r. }
  destruct (Nat.eqb attempt maxRetries) eqn:Hlast.
  - assert (remaining = 0) as -> by (apply Nat.eqb_eq in Hlast; lia).
    exists message.
    unfold retry_loop, try_catch, bind, log, mongoose_connect, throw, modify, ret.
    destruct (level_enabled envConfig); simpl; rewrite Hconn, Hlast; simpl;
      (eexists; split; [reflexivity|]; simpl;
       repeat split; [lia | rewrite ?effects_app; simpl; now rewrite ?app_nil_r]).
  - assert (remaining <> 0) as Hmore by (apply Nat.eqb_neq in Hlast; lia).
    rewrite failed_schedule_step by assumption.
    cbn [retry_loop].
    unfold try_catch, bind at 1, log, mongoose_connect, sleep, throw, modify, ret.
    unfold bind at 1 2 3 4 5 6.
    destruct (level_enabled envConfig); simpl; rewrite Hconn, Hlast; simpl;
      match goal with
      | |- context [retry_loop _ _ _ _ _ ?w1] =>
          destruct (IH (S attempt) w1) as (msg & w' & Hrun & Hcount & Heff & Hexit);
            [ simpl; intros j Hj Hn; apply (Hfail (S j)); [lia|];
              rewrite <- Hn; f_equal; lia
            | lia | assumption |]
      end;
      exists msg, w'; (split; [exact Hrun|]);
      simpl in Hcount, Heff, Hexit;
      (repeat split;
       [lia
        | rewrite Heff, ?effects_app; simpl; rewrite ?app_nil_r, <- ?app_assoc;
          reflexivity
        | assumption]).
Qed.

(** When the first [i] attempts fail and the next one succeeds, the loop
    makes those [i + 1] attempts and returns. *)
Lemma retry_loop_succeeds (envConfig : EnvironmentConfig) (maxRetries : nat)
    (retryDelay : Z) (i : nat) :
  forall (remaining attempt : nat) (w : Server),
    (forall j, j < i -> connect_result w (connects w + j) <> None) ->
    connect_result w (connects w + i) = None ->
    attempt + remaining = S maxRetries ->
    i < remaining ->
    exists w',
      retry_loop envConfig maxRetries retryDelay remaining attempt w
      = (Returned tt, w')
      /\ connects w' = connects w + S i
      /\ effects (events w')
         = effects (events w)
           ++ failed_schedule (mongoUri envConfig) (connection_options envConfig)
                retryDelay (S i)
      /\ exit_code w' = exit_code w.
Proof.
  induction i as [|i IH]; intros remaining attempt w Hfail Hok Hsum Hlt;
    (destruct remaining as [|remaining]; [lia|]).
  - rewrite Nat.add_0_r in Hok.
    unfold retry_loop, try_catch, bind, log, mongoose_connect, throw, modify, ret.
    destruct (level_enabled envConfig); simpl; rewrite Hok; simpl;
      (eexists; split; [reflexivity|]; simpl;
       repeat split; [lia | rewrite ?effects_app; simpl; now rewrite ?app_nil_r]).
  - destruct (connect_result w (connects w)) as [message|] eqn:Hconn.
    2: { exfalso. apply (Hfail 0); [lia|]. now rewrite Nat.add_0_r. }
    assert (Nat.eqb attempt maxRetries = false) as Hlast
      by (apply Nat.eqb_neq; lia).
    rewrite failed_schedule_step by discriminate.
    cbn [retry_loop].
    unfold try_catch, bind at 1, log, mongoose_connect, sleep, throw, modify, ret.
    unfold bind at 1 2 3 4 5 6.
    destruct (level_enabled envConfig); simpl; rewrite Hconn, Hlast; simpl;
      match goal with
      | |- context [retry_loop _ _ _ _ _ ?w1] =>
          destruct (IH remaining (S attempt) w1)
            as (w' & Hrun & Hcount & Heff & Hexit);
            [ simpl; intros j Hj Hn; apply (Hfail (S j)); [lia|];
              rewrite <- Hn; f_equal; lia
            | simpl; rewrite <- Hok; f_equal; lia
            | lia | lia |]
      end;
      exists w'; (split; [exact Hrun|]);
      simpl in Hcount, Heff, Hexit;
      (repeat split;
       [lia
        | rewrite Heff, ?effects_app; simpl; rewrite ?app_nil_r, <- ?app_assoc;
          reflexivity
        | assumption]).
Qed.

Lemma first_success_Some (result : nat -> option string) (n : nat) :
  forall from i,
    first_success result from n = Some i
    <-> i < n /\ result (from + i) = None
        /\ forall j, j < i -> result (from + j) <> None.
Proof.
  induction n as [|n IH]; intros from i; simpl.
  - split; [discriminate | lia].
  - destruct (result from) as [message|] eqn:Hfrom.
    + destruct (first_success result (S from) n) as [k|] eqn:Hk; simpl.
      * apply IH in Hk. destruct Hk as (Hlt & Hok & Hfail). split.
        -- intros H. injection H as <-. split; [lia|].
           split; [replace (from + S k) with (S from + k) by lia; exact Hok|].
           intros j Hj. destruct j as [|j].
           ++ rewrite Nat.add_0_r, Hfrom. discriminate.
           ++ replace (from + S j) with (S from + j) by lia. apply Hfail. lia.
        -- intros (Hi & Hoki & Hfaili). f_equal.
           destruct i as [|i]; [rewrite Nat.add_0_r in Hoki; congruence|].
           destruct (Nat.lt_trichotomy i k) as [Hlt'|[->|Hgt]]; [|reflexivity|].
           ++ exfalso. apply (Hfail i Hlt').
              replace (S from + i) with (from + S i) by lia. exact Hoki.
           ++ exfalso. apply (Hfaili (S k)); [lia|].
              replace (from + S k) with (S from + k) by lia. exact Hok.
      * split; [discriminate|]. intros (Hi & Hoki & Hfaili). exfalso.
        destruct i as [|i]; [rewrite Nat.add_0_r in Hoki; congruence|].
        assert (first_success result (S from) n = Some i) as Habs.
        { apply IH. split; [lia|].
          split; [replace (S from + i) with (from + S i) by lia; exact Hoki|].
          intros j Hj. replace (S from + j) with (from + S j) by lia.
          apply Hfaili. lia. }
        congruence.
    + split.
      * intros H. injection H as <-. split; [lia|].
        split; [now rewrite Nat.add_0_r | lia].
      * intros (Hi & Hoki & Hfaili). f_equal.
        destruct i as [|i]; [reflexivity|]. exfalso.
        apply (Hfaili 0); [lia|]. now rewrite Nat.add_0_r.
Qed.

Lemma first_success_None (result : nat -> option string) (n : nat) :
  forall from,
    first_success result from n = None ->
    forall j, j < n -> result (from + j) <> None.
Proof.
  induction n as [|n IH]; intros from Hnone j Hj; [lia|].
  simpl in Hnone. destruct (result from) as [message|] eqn:Hfrom; [|discriminate].
  destruct (first_success result (S from) n) eqn:Hk; [discriminate|].
  destruct j as [|j].
  - rewrite Nat.add_0_r, Hfrom. discriminate.
  - replace (from + S j) with (S from + j) by lia. apply (IH (S from) Hk). lia.
Qed.

(** What [initialize_connection] does, for any outcomes of the attempts. *)
Lemma initialize_connection_run (envConfig : EnvironmentConfig) (w : Server) :
  exists w',
    initialize_connection envConfig w = (Returned tt, w')
    /\ match first_success (connect_result w) (connects w) 10 with
       | Some i =>
           connects w' = connects w + S i
           /\ effects (events w')
              = effects (events w)
                ++ failed_schedule (mongoUri envConfig) (connection_options envConfig)
                     5000 (S i)
           /\ exit_code w' = exit_code w
       | None =>
           connects w' = connects w + 10
           /\ effects (events w')
              = effects (events w)
                ++ failed_schedule (mongoUri envConfig) (connection_options envConfig)
                     5000 10
                ++ [EvExit 1]
           /\ exit_code w' = Some (default 1%Z (exit_code w))
       end.
Proof.
  unfold initialize_connection, connectWithRetry, try_catch. cbv zeta.
  destruct (first_success (connect_result w) (connects w) 10) as [i|] eqn:Hfirst.
  - apply first_success_Some in Hfirst. destruct Hfirst as (Hlt & Hok & Hfail).
    destruct (retry_loop_succeeds envConfig 10 5000 i 10 1 w Hfail Hok)
      as (w' & Hrun & Hrest); [lia | lia |].
    rewrite Hrun. eauto.
  - pose proof (first_success_None _ _ _ Hfirst) as Hfail.
    destruct (retry_loop_exhausts envConfig 10 5000 10 1 w Hfail)
      as (message & w1 & Hrun & Hcount & Heff & Hexit); [lia | lia |].
    rewrite Hrun. unfold bind, log, process_exit, modify.
    destruct (level_enabled envConfig); simpl;
      (eexists; split; [reflexivity|]; simpl;
       rewrite Hexit, ?effects_app, Heff; simpl;
       rewrite ?app_nil_r, <- ?app_assoc;
       repeat split; [assumption | now destruct (exit_code w)]).
Qed.

(** X21.  Whatever the outcomes of the connection attempts,
    [connectWithRetry] under its [catch] handler comes to an end.  It
    stops at the first attempt that succeeds: after [i] failures and a
    success it has made [i + 1] attempts with a 5000 ms wait between
    consecutive ones, and the process goes on.  Only when ten attempts in
    a row have failed does it call [process.exit(1)], with no wait after
    the tenth.  It never makes an eleventh attempt. *)
Theorem connection_attempts_stop_at_first_success :
  forall (envConfig : EnvironmentConfig) (w : Server),
    (forall i,
        first_success (connect_result w) (connects w) 10 = Some i
        <-> i < 10 /\ connect_result w (connects w + i) = None
            /\ forall j, j < i -> connect_result w (connects w + j) <> None)
    /\ exists w',
        initialize_connection envConfig w = (Returned tt, w')
        /\ match first_success (connect_result w) (connects w) 10 with
           | Some i =>
               connects w' = connects w + S i
               /\ effects (events w')
                  = effects (events w)
                    ++ failed_schedule (mongoUri envConfig)
                         (connection_options envConfig) 5000 (S i)
               /\ exit_code w' = exit_code w
           | None =>
               connects w' = connects w + 10
               /\ effects (events w')
                  = effects (events w)
                    ++ failed_schedule (mongoUri envConfig)
                         (connection_options envConfig) 5000 10
                    ++ [EvExit 1]
               /\ exit_code w' = Some (default 1%Z (exit_code w))
           end.
Proof.
  intros envConfig w. split.
  - intros i. apply first_success_Some.
  - apply initialize_connection_run.
Qed.

Example connection_third_attempt :
  fst (initialize_connection three_attempts slow_database) = Returned tt
  /\ connects (snd (initialize_connection three_attempts slow_database)) = 3
  /\ exit_code (snd (initialize_connection three_attempts slow_database)) = None
  /\ effects (events (snd (initialize_connection three_attempts slow_database)))
     = [EvConnect (mongoUri three_attempts) (connection_options three_attempts);
        EvDelay 5000;
        EvConnect (mongoUri three_attempts) (connection_options three_attempts);
        EvDelay 5000;
        EvConnect (mongoUri three_attempts) (connection_options three_attempts)].
Proof. repeat split; vm_compute; reflexivity. Qed.

(** X22.  The schedule of connection attempts does not depend on the
    logging configuration, nor on anything else of the configuration but
    the URI and the three connection options: two configurations that
    agree on those make the same attempts, waits and exit. *)
Theorem connection_schedule_ignores_logging :
  forall (envConfig1 envConfig2 : EnvironmentConfig) (w : Server),
    mongoUri envConfig1 = mongoUri envConfig2 ->
    connection_options envConfig1 = connection_options envConfig2 ->
    effects (events (snd (initialize_connection envConfig1 w)))
    = effects (events (snd (initialize_connection envConfig2 w)))
    /\ connects (snd (initialize_connection envConfig1 w))
       = connects (snd (initialize_connection envConfig2 w))
    /\ exit_code (snd (initialize_connection envConfig1 w))
       = exit_code (snd (initialize_connection envConfig2 w)).
Proof.
  intros envConfig1 envConfig2 w Huri Hopts.
  destruct (initialize_connection_run envConfig1 w) as (w1 & -> & H1).
  destruct (initialize_connection_run envConfig2 w) as (w2 & -> & H2).
  simpl. rewrite Huri, Hopts in H1.
  destruct (first_success (connect_result w) (connects w) 10);
    destruct H1 as (-> & -> & ->); destruct H2 as (-> & -> & ->); auto.
Qed.

Lemma connection_schedule_ignores_logging_witness :
  effects (events (snd (initialize_connection
                          (with_config (<["LOG_LEVEL" := "silent"]> ∅))
                          unreachable_database)))
  = effects (events (snd (initialize_connection
                            (with_config (<["LOG_LEVEL" := "debug"]> ∅))
                            unreachable_database))).
Proof.
  refine (proj1 (connection_schedule_ignores_logging
                   (with_config (<["LOG_LEVEL" := "silent"]> ∅))
                   (with_config (<["LOG_LEVEL" := "debug"]> ∅))
                   unreachable_database _ _));
    vm_compute; reflexivity.
Defined.

(* ===================================================================== *)
(** ** The three probes together *)
(* ===================================================================== *)

(** X23.  Asked in the same state of the world, [GET /health] and
    [GET /ready] give the same status code, after the same single ping or
    none.  Neither attempts a connection, waits, or ends the process: a
    ping and log lines are all they do.  [GET /live] answers 200 in any
    state and does nothing at all. *)
Theorem probes_agree_and_only_ping :
  forall (envConfig : EnvironmentConfig) (w : Server),
  exists rh wh rr wr,
    health envConfig w = (Returned rh, wh)
    /\ ready envConfig w = (Returned rr, wr)
    /\ live w = (Returned {| statusCode := 200; json := LiveBody "alive" |}, w)
    /\ statusCode rh = statusCode rr
    /\ pings wh = pings wr
    /\ effects (events wh) = effects (events wr)
    /\ (effects (events wh) = effects (events w)
        \/ effects (events wh) = effects (events w) ++ [EvPing])
    /\ connects wh = connects w /\ connects wr = connects w
    /\ exit_code wh = exit_code w /\ exit_code wr = exit_code w
    /\ readyState wh = readyState w /\ readyState wr = readyState w.
Proof.
  intros envConfig w.
  unfold health, check_database, ready, live, try_catch, bind, gets, admin_ping,
    Date_now, log, modify, ret.
  simpl.
  destruct (readyState w =? 1)%Z eqn:Hstate; simpl.
  - destruct (ping_result w (pings w)) as [message|] eqn:Hping; simpl.
    + destruct (level_enabled envConfig); simpl;
        (eexists _, _, _, _; split; [reflexivity|]; split; [reflexivity|];
         simpl; rewrite ?effects_app; simpl; rewrite ?app_nil_r;
         repeat split; tauto).
    + eexists _, _, _, _. split; [reflexivity|]. split; [reflexivity|].
      simpl. rewrite ?effects_app. simpl. repeat split; tauto.
  - destruct (level_enabled envConfig); simpl;
      (eexists _, _, _, _; split; [reflexivity|]; split; [reflexivity|];
       simpl; rewrite ?effects_app; simpl; rewrite ?app_nil_r;
       repeat split; tauto).
Qed.

(* ===================================================================== *)
(** ** The start-up banner *)
(* ===================================================================== *)

Open Scope string_scope.

Lemma after_last_at_none (s : string) :
  free_of "@"%char s -> after_last_at s = None.
Proof.
  unfold free_of. induction s as [|c s IH]; [reflexivity|].
  simpl. intros H. apply andb_true_iff in H. destruct H as [Hc Hs].
  apply negb_true_iff in Hc. rewrite (IH Hs), Hc.
  now destruct (JsString.is_line_terminator c).
Qed.

Lemma after_last_at_found (cred rest : string) :
  single_line cred -> free_of "@"%char rest ->
  after_last_at (cred ++ String "@"%char rest) = Some rest.
Proof.
  unfold single_line. intros Hline Hrest.
  induction cred as [|c cred IH].
  - change ("" ++ String "@"%char rest) with (String "@"%char rest).
    simpl. now rewrite (after_last_at_none rest Hrest).
  - simpl in Hline. apply andb_true_iff in Hline. destruct Hline as [Hc Hcred].
    apply negb_true_iff in Hc. rewrite append_cons. simpl.
    now rewrite Hc, (IH Hcred).
Qed.

Lemma mask_credentials_unchanged (s : string) :
  free_of "@"%char s -> mask_credentials s = s.
Proof.
  induction s as [|c s IH]; [reflexivity|]. intros H.
  assert (free_of "@"%char s) as Hs.
  { unfold free_of in *. simpl in H. now apply andb_true_iff in H. }
  simpl. rewrite (IH Hs).
  destruct (Ascii.eqb c "/"); [|reflexivity].
  destruct s as [|d rest]; [reflexivity|].
  destruct (Ascii.eqb d "/"); [|reflexivity].
  assert (free_of "@"%char rest) as Hrest.
  { unfold free_of in *. simpl in Hs. now apply andb_true_iff in Hs. }
  now rewrite (after_last_at_none rest Hrest).
Qed.

Lemma mask_credentials_prefix (p s : string) :
  free_of "/"%char p -> mask_credentials (p ++ s) = p ++ mask_credentials s.
Proof.
  unfold free_of. induction p as [|c p IH]; intros Hp; [reflexivity|].
  simpl in Hp. apply andb_true_iff in Hp. destruct Hp as [Hc Hp].
  apply negb_true_iff in Hc. rewrite !append_cons.
  change (mask_credentials (String c (p ++ s)))
    with (match
             (if Ascii.eqb c "/" then
                match p ++ s with
                | String d rest => if Ascii.eqb d "/" then after_last_at rest else None
                | EmptyString => None
                end
              else None)
           with
           | Some rest => "//***:***@" ++ rest
           | None => String c (mask_credentials (p ++ s))
           end).
  rewrite Hc. now rewrite (IH Hp).
Qed.

Lemma mask_credentials_masks (p cred rest : string) :
  free_of "/"%char p -> single_line cred -> free_of "@"%char rest ->
  mask_credentials (p ++ "//" ++ cred ++ "@" ++ rest)
  = p ++ "//***:***@" ++ rest.
Proof.
  intros Hp Hcred Hrest. rewrite (mask_credentials_prefix p _ Hp). f_equal.
  change ("//" ++ cred ++ "@" ++ rest)
    with (String "/" (String "/" (cred ++ String "@"%char rest))).
  change (mask_credentials (String "/" (String "/" (cred ++ String "@"%char rest))))
    with (match after_last_at (cred ++ String "@"%char rest) with
          | Some r => "//***:***@" ++ r
          | None => String "/" (mask_credentials
                                  (String "/" (cred ++ String "@"%char rest)))
          end).
  now rewrite (after_last_at_found cred rest Hcred Hrest).
Qed.

(** X24.  In the start-up banner the MongoDB URI is shown with its
    credentials replaced: for a URI made of a scheme without a slash, two
    slashes, credentials on one line, an [@] and the rest without [@],
    what is shown is the scheme, the two slashes, the mask [***:***], the
    [@] and the rest, whatever the credentials are.  A URI without [@] is
    shown as it is.  When MONGODB_URI has no value the expression throws
    a TypeError. *)
Theorem banner_masks_credentials :
  forall envConfig : EnvironmentConfig,
    (forall p cred rest,
        free_of "/"%char p -> single_line cred -> free_of "@"%char rest ->
        config envConfig !! "MONGODB_URI" = Some (p ++ "//" ++ cred ++ "@" ++ rest) ->
        uri_for_log envConfig = Returned (p ++ "//***:***@" ++ rest))
    /\ (forall s,
          free_of "@"%char s ->
          config envConfig !! "MONGODB_URI" = Some s ->
          uri_for_log envConfig = Returned s)
    /\ (config envConfig !! "MONGODB_URI" = None ->
        uri_for_log envConfig = Thrown undefined_replace).
Proof.
  intros envConfig. unfold uri_for_log, mongoUri, get. split; [|split].
  - intros p cred rest Hp Hcred Hrest ->. f_equal.
    now apply mask_credentials_masks.
  - intros s Hs ->. f_equal. now apply mask_credentials_unchanged.
  - intros ->. reflexivity.
Qed.

Lemma banner_masks_credentials_witness :
  uri_for_log
    (with_config
       (<["MONGODB_URI" := "mongodb:" ++ "//" ++ "admin:p@ss" ++ "@" ++ "db:27017/bb-db"]> ∅))
  = Returned ("mongodb:" ++ "//***:***@" ++ "db:27017/bb-db")
  /\ uri_for_log (with_config (<["MONGODB_URI" := "mongodb://db:27017/bb-db"]> ∅))
     = Returned "mongodb://db:27017/bb-db"
  /\ uri_for_log (with_config ∅) = Thrown undefined_replace.
Proof.
  split; [|split].
  - apply (proj1 (banner_masks_credentials
                    (with_config
                       (<["MONGODB_URI" := "mongodb:" ++ "//" ++ "admin:p@ss" ++ "@"
                                           ++ "db:27017/bb-db"]> ∅)))
             "mongodb:" "admin:p@ss" "db:27017/bb-db");
      reflexivity.
  - apply (proj1 (proj2 (banner_masks_credentials
                           (with_config
                              (<["MONGODB_URI" := "mongodb://db:27017/bb-db"]> ∅))))
             "mongodb://db:27017/bb-db");
      reflexivity.
  - apply (proj2 (proj2 (banner_masks_credentials (with_config ∅)))).
    reflexivity.
Defined.

(* ===================================================================== *)
(** ** Two readings of NODE_ENV *)
(* ===================================================================== *)

Lemma loadEnvironmentFiles_resolves (this this' : EnvironmentConfig)
    (p p' : Process) (key : string) :
  loadEnvironmentFiles (E:=env_error) this p = (Returned this', p') ->
  environment this' = environment this
  /\ config this' !! key
     = or_option (process_env p !! key)
         (or_option (config this !! key)
            (first_assignment (flat_map (file_lines p) (envFiles this)) key)).
Proof.
  intros Hrun.
  destruct (load_files_loads (E:=env_error) (envFiles this) this p)
    as (t & p1 & Hfiles & (Henv & _) & (_ & He & _)).
  unfold loadEnvironmentFiles, bind at 1 in Hrun. rewrite Hfiles in Hrun.
  unfold bind, gets, ret in Hrun. injection Hrun as <- <-.
  split; [exact Henv|].
  unfold set_config, spread. cbn [config]. rewrite He.
  rewrite <- (load_files_lookup (E:=env_error) (envFiles this) this t p p1 key Hfiles).
  destruct (process_env p !! key) as [v|] eqn:Hv.
  - now apply lookup_union_Some_l.
  - now rewrite lookup_union_r.
Qed.

Lemma constructor_resolves (p p' : Process) (this : EnvironmentConfig) (key : string) :
  constructor p = (Returned this, p') ->
  environment this = or_else (process_env p !! "NODE_ENV") "development"
  /\ config this !! key
     = or_option (process_env p !! key)
         (first_assignment
            (flat_map (file_lines p) (envFiles (initial_config (process_env p))))
            key).
Proof.
  unfold constructor, bind at 1, gets.
  change (set_add_all ["SESSION_SECRET"; "JWT_SECRET"; "MONGODB_URI"] [])
    with ["SESSION_SECRET"; "JWT_SECRET"; "MONGODB_URI"].
  fold (initial_config (process_env p)).
  unfold bind at 1.
  destruct (loadEnvironmentFiles (initial_config (process_env p)) p)
    as [[t|e] q] eqn:Hload; [|discriminate].
  unfold bind at 1.
  destruct (validateConfiguration t q) as [[u|e] q']; [|discriminate].
  intros H. injection H as <- _.
  destruct (loadEnvironmentFiles_resolves _ _ _ _ key Hload) as (Henv & Hcfg).
  split; [exact Henv|]. rewrite Hcfg. simpl.
  now destruct (process_env p !! key).
Qed.

(** X25.  The two modules read NODE_ENV differently.  When NODE_ENV is
    absent from the process environment and an environment file sets it
    to "production", server.js takes the process to be in production
    ([isProduction] is true) while env-config.js has labelled the
    environment "development", has read [.env.development] as the second
    file layer, and has accepted every secret without the production
    check.  The files are taken to assign neither [hasOwnProperty] nor
    [__proto__]. *)
Theorem production_from_file_is_unchecked :
  forall (fs : gmap string file_state) (env : gmap string string)
         (this : EnvironmentConfig) (p' : Process),
    env !! "NODE_ENV" = None ->
    plain_lines
      (flat_map (file_lines (start fs env)) [".env"; ".env.development"; ".env.local"]) ->
    first_assignment
      (flat_map (file_lines (start fs env)) [".env"; ".env.development"; ".env.local"])
      "NODE_ENV" = Some "production" ->
    constructor (start fs env) = (Returned this, p') ->
    isProduction this = true
    /\ environment this = "development"
    /\ insecure_keys this = [].
Proof.
  intros fs env this p' Henv _ Hfile Hrun.
  destruct (constructor_resolves _ _ _ "NODE_ENV" Hrun) as (Hlabel & Hcfg).
  change (process_env (start fs env)) with env in *.
  unfold envFiles, initial_config in Hcfg. cbn [environment] in Hcfg.
  rewrite Henv in Hlabel, Hcfg. cbn [or_else or_option] in Hlabel, Hcfg.
  change (".env." ++ "development") with ".env.development" in Hcfg.
  rewrite Hfile in Hcfg.
  split; [|split].
  - unfold isProduction, get. now rewrite Hcfg.
  - exact Hlabel.
  - apply insecure_keys_outside_production. rewrite Hlabel. discriminate.
Qed.

Lemma production_from_file_is_unchecked_witness :
  exists this p',
    constructor (start production_in_file ∅) = (Returned this, p')
    /\ isProduction this = true
    /\ environment this = "development"
    /\ insecure_keys this = [].
Proof.
  destruct (constructor (start production_in_file ∅)) as [[this|e] q] eqn:Hrun.
  - exists this, q. split; [reflexivity|].
    apply (production_from_file_is_unchecked production_in_file ∅ this q).
    + apply lookup_empty.
    + vm_compute. reflexivity.
    + vm_compute. reflexivity.
    + exact Hrun.
  - vm_compute in Hrun. discriminate Hrun.
Defined.

(* ===================================================================== *)
(** ** The logger *)
(* ===================================================================== *)

(** X26.  The logger does not rank its levels.  [log.info], [log.warn]
    and [log.error] all print exactly when LOG_LEVEL (or "info" when it
    has no value) is one of "debug", "info", "warn", "error", spelled so;
    under any other value nothing is printed, errors included, and under
    "error" info lines are printed too.  [log.debug] prints exactly under
    "debug".  Printing appends one event and changes nothing else. *)
Theorem log_levels_are_not_ranked :
  forall (envConfig : EnvironmentConfig) (method : log_method)
         (msg : server_message) (w : Server),
  exists printed : bool,
    log envConfig method msg w
    = (Returned tt, if printed then emit (EvLog method msg) w else w)
    /\ (printed = true
        <-> (method = log_debug
             /\ default "info" (config envConfig !! "LOG_LEVEL") = "debug")
            \/ (method <> log_debug
                /\ In (default "info" (config envConfig !! "LOG_LEVEL"))
                     ["debug"; "info"; "warn"; "error"])).
Proof.
  intros envConfig method msg w. unfold log, level_enabled, logLevel, get.
  set (level := default "info" (config envConfig !! "LOG_LEVEL")).
  assert (match config envConfig !! "LOG_LEVEL" with
          | Some s => Str s
          | None => Str "info"
          end = Str level) as ->
    by (unfold level; destruct (config envConfig !! "LOG_LEVEL"); reflexivity).
  assert (bool_decide (level ∈ ["debug"; "info"; "warn"; "error"]) = true
          <-> In level ["debug"; "info"; "warn"; "error"]) as Hnamed
    by (rewrite bool_decide_eq_true; apply list_elem_of_In).
  destruct method.
  - exists (bool_decide (level ∈ ["debug"; "info"; "warn"; "error"])).
    split; [destruct (bool_decide _); reflexivity|]. rewrite Hnamed. split.
    + intros H. right. split; [discriminate | exact H].
    + intros [[Hd _]|[_ H]]; [discriminate Hd | exact H].
  - exists (bool_decide (level ∈ ["debug"; "info"; "warn"; "error"])).
    split; [destruct (bool_decide _); reflexivity|]. rewrite Hnamed. split.
    + intros H. right. split; [discriminate | exact H].
    + intros [[Hd _]|[_ H]]; [discriminate Hd | exact H].
  - exists (bool_decide (level ∈ ["debug"; "info"; "warn"; "error"])).
    split; [destruct (bool_decide _); reflexivity|]. rewrite Hnamed. split.
    + intros H. right. split; [discriminate | exact H].
    + intros [[Hd _]|[_ H]]; [discriminate Hd | exact H].
  - exists (String.eqb level "debug").
    split; [destruct (String.eqb level "debug"); reflexivity|].
    rewrite String.eqb_eq. split.
    + intros H. left. split; [reflexivity | exact H].
    + intros [[_ H]|[Hn _]]; [exact H | congruence].
Qed.

Example log_error_level_prints_info :
  fst (log (with_config (<["LOG_LEVEL" := "error"]> ∅)) log_info MsgConnected
         disconnected) = Returned tt
  /\ events (snd (log (with_config (<["LOG_LEVEL" := "error"]> ∅)) log_info
                    MsgConnected disconnected))
     = [EvLog log_info MsgConnected].
Proof. split; reflexivity. Qed.

Example log_unknown_level_prints_nothing :
  events (snd (log (with_config (<["LOG_LEVEL" := "ERROR"]> ∅)) log_error
                 MsgMaxRetries disconnected)) = [].
Proof. reflexivity. Qed.
